(** * The in-memory chat engine of [DistributedChatServer]

    A shallow embedding of [backend/src/ChatServer.ts]: the five maps of the
    class ([users], [groups], [messages], [userSocketMap], [typingStatus]),
    the socket handlers of [setupSocketHandlers], [handleUserDisconnect], the
    [setTimeout] callbacks of [typing:start] and the sweep of [start].

    Conventions.
    - A JS string is a Rocq [string]; its characters are the code units below
      256, compared with [===] by [String.eqb] and ordered, as the default
      [Array.prototype.sort] does, code unit by code unit.
    - A [Date] is its epoch value in milliseconds, a [Z]; [new Date()] and
      [uuidv4()] read the environment, which every event carries as [Env].
    - [Map<string, User>] is searched in insertion order by [user:join], so
      [users] is the list of entries in insertion order; the other maps are
      only looked up by key and are [gmap]s.
    - An [emit] and a [callback] are appended to the list of outputs a
      handler returns. *)

From Stdlib Require Import ZArith Ascii String List Bool Lia.
From stdpp Require Import base option list sorting strings pretty gmap fin_maps.

Local Open Scope string_scope.
Local Open Scope list_scope.
Local Open Scope Z_scope.

(** ** Strings as JavaScript sees them *)

Module Js.

(** [WhiteSpace] and [LineTerminator] code units below 256: TAB, LF, VT, FF,
    CR, SP and NBSP. *)
Definition isWhiteSpace (c : ascii) : bool :=
  let n := nat_of_ascii c in
  ((9 <=? n)%nat && (n <=? 13)%nat) || (n =? 32)%nat || (n =? 160)%nat.

Fixpoint trimStart (s : string) : string :=
  match s with
  | String c s' => if isWhiteSpace c then trimStart s' else s
  | EmptyString => EmptyString
  end.

(** [trimEnd] walks the string once; a run of white space is kept only when
    something other than white space follows it. *)
Fixpoint trimEnd (s : string) : string :=
  match s with
  | String c s' =>
      match trimEnd s' with
      | EmptyString => if isWhiteSpace c then EmptyString else String c EmptyString
      | t => String c t
      end
  | EmptyString => EmptyString
  end.

(** [String.prototype.trim] *)
Definition trim (s : string) : string := trimEnd (trimStart s).

(** [String.prototype.toLowerCase] on code units below 256. *)
Definition lowerChar (c : ascii) : ascii :=
  let n := nat_of_ascii c in
  if ((65 <=? n)%nat && (n <=? 90)%nat)
     || ((192 <=? n)%nat && (n <=? 222)%nat && negb (n =? 215)%nat)
  then ascii_of_nat (n + 32) else c.

Fixpoint toLowerCase (s : string) : string :=
  match s with
  | String c s' => String (lowerChar c) (toLowerCase s')
  | EmptyString => EmptyString
  end.

(** Truthiness of a string ([if (s)]): every string but the empty one. *)
Definition truthy (s : string) : bool := negb (String.eqb s "").

(** Truthiness of [string | undefined]. *)
Definition truthyOpt (o : option string) : bool :=
  match o with Some s => truthy s | None => false end.

(** [x || undefined] for an optional string. *)
Definition orUndefined (o : option string) : option string :=
  match o with Some s => if truthy s then Some s else None | None => None end.

(** [[a, b].sort()]: the default comparison orders strings by code units and
    the sort is stable. *)
Definition sort2 (a b : string) : string * string :=
  if String.ltb b a then (b, a) else (a, b).

(** [xs.slice(start)] for an integer [start]. *)
Definition slice {A} (start : Z) (xs : list A) : list A :=
  let len := Z.of_nat (length xs) in
  let k := if start <? 0 then Z.max (len + start) 0 else Z.min start len in
  drop (Z.to_nat k) xs.

(** [xs.findIndex(p)], [None] for [-1]. *)
Fixpoint findIndex {A} (p : A -> bool) (xs : list A) : option nat :=
  match xs with
  | [] => None
  | x :: xs' => if p x then Some O else S <$> findIndex p xs'
  end.

End Js.

(** ** Data model ([types/index.ts]) *)

Module User.
(** [isTyping?] is never written by the server and is left out. *)
Record t := mk {
  id : string;
  username : string;
  socketId : string;
  serverId : string;
  groups : list string;
  isOnline : bool;
  lastSeen : Z
}.

(** [user.isOnline = b; user.socketId = sid; user.lastSeen = seen] *)
Definition setPresence (b : bool) (sid : string) (seen : Z) (u : t) : t :=
  mk (id u) (username u) sid (serverId u) (groups u) b seen.

(** [user.groups = gs] *)
Definition setGroups (gs : list string) (u : t) : t :=
  mk (id u) (username u) (socketId u) (serverId u) gs (isOnline u) (lastSeen u).
End User.

Module Group.
Record t := mk {
  id : string;
  name : string;
  description : option string;
  creator : string;
  members : list string;
  createdAt : Z
}.

(** [group.members = ms] *)
Definition setMembers (ms : list string) (g : t) : t :=
  mk (id g) (name g) (description g) (creator g) ms (createdAt g).
End Group.

Module Replied.
Record t := mk {
  id : string;
  sender : string;
  senderName : option string;
  content : string;
  timestamp : Z
}.
End Replied.

Module Message.
Inductive kind := KGroup | KPrivate | KSystem.

(** The fields the server stores.  [senderName], [groupName], [isPrivate]
    and [isOwnMessage] exist only on the copies it emits (see [PMessage]);
    [edited], [editedAt], [deliveryAttempts], [lastDeliveryAttempt] and
    [pending] are never written. *)
Record t := mk {
  id : string;
  type : kind;
  sender : string;
  recipient : string;
  content : string;
  attachments : option (list string);
  timestamp : Z;
  delivered : bool;
  read : bool;
  replyTo : option string;
  repliedMessage : option Replied.t;
  deletedForMe : option bool;
  deletedForEveryone : option bool;
  deletedBy : option string
}.

(** [msg.read = true] *)
Definition setRead (m : t) : t :=
  mk (id m) (type m) (sender m) (recipient m) (content m) (attachments m)
     (timestamp m) (delivered m) true (replyTo m) (repliedMessage m)
     (deletedForMe m) (deletedForEveryone m) (deletedBy m).

Definition placeholder : string := "This message was deleted".

(** [{...message, content: "This message was deleted", attachments: [],
      deletedForEveryone: true, deletedBy: userId}] *)
Definition deleteForEveryone (userId : string) (m : t) : t :=
  mk (id m) (type m) (sender m) (recipient m) placeholder (Some [])
     (timestamp m) (delivered m) (read m) (replyTo m) (repliedMessage m)
     (deletedForMe m) (Some true) (Some userId).

(** [{...message, content: "This message was deleted", attachments: [],
      deletedForMe: true, deletedBy: userId}] *)
Definition deleteForMe (userId : string) (m : t) : t :=
  mk (id m) (type m) (sender m) (recipient m) placeholder (Some [])
     (timestamp m) (delivered m) (read m) (replyTo m) (repliedMessage m)
     (Some true) (deletedForEveryone m) (Some userId).
End Message.

(** An entry of [typingStatus]. *)
Module Typing.
Record t := mk { chatId : string; isPrivate : bool; timestamp : Z }.
End Typing.

(** A pending [setTimeout] callback of [typing:start]: the time it is due and
    the variables its closure captured. *)
Module Timer.
Record t := mk { due : Z; userId : string; chatId : string; isPrivate : bool }.
End Timer.

(** [socket.data] of a connected socket. *)
Module SocketData.
Record t := mk { userId : option string; username : option string }.
End SocketData.

(** The mutable state of one [DistributedChatServer], with the sockets
    connected to it and the timers it has pending. *)
Record Server := mkServer {
  serverId : string;
  users : list User.t;
  groups : gmap string Group.t;
  messages : gmap string (list Message.t);
  userSocketMap : gmap string string;
  typingStatus : gmap string Typing.t;
  sockets : gmap string SocketData.t;
  timers : list Timer.t
}.

Definition setUsers (us : list User.t) (s : Server) : Server :=
  mkServer (serverId s) us (groups s) (messages s) (userSocketMap s)
           (typingStatus s) (sockets s) (timers s).
Definition setGroups (gs : gmap string Group.t) (s : Server) : Server :=
  mkServer (serverId s) (users s) gs (messages s) (userSocketMap s)
           (typingStatus s) (sockets s) (timers s).
Definition setMessages (ms : gmap string (list Message.t)) (s : Server) : Server :=
  mkServer (serverId s) (users s) (groups s) ms (userSocketMap s)
           (typingStatus s) (sockets s) (timers s).
Definition setUserSocketMap (m : gmap string string) (s : Server) : Server :=
  mkServer (serverId s) (users s) (groups s) (messages s) m
           (typingStatus s) (sockets s) (timers s).
Definition setTypingStatus (m : gmap string Typing.t) (s : Server) : Server :=
  mkServer (serverId s) (users s) (groups s) (messages s) (userSocketMap s)
           m (sockets s) (timers s).
Definition setSockets (m : gmap string SocketData.t) (s : Server) : Server :=
  mkServer (serverId s) (users s) (groups s) (messages s) (userSocketMap s)
           (typingStatus s) m (timers s).
Definition setTimers (ts : list Timer.t) (s : Server) : Server :=
  mkServer (serverId s) (users s) (groups s) (messages s) (userSocketMap s)
           (typingStatus s) (sockets s) ts.

(** [new Date()] and [uuidv4()] as the handler running now reads them. *)
Record Env := mkEnv { now : Z; uuid : string }.

(** ** What a handler sends *)

Inductive Payload :=
| PServerInfo (serverId : string) (users : list User.t) (groups : list Group.t) (timestamp : Z)
| PUser (user : User.t)
| PUserJoined (user : User.t) (action : string)
| PUsers (users : list User.t)
| PGroup (group : Group.t)
| PGroups (groups : list Group.t)
| PGroupId (groupId : string)
| PMember (groupId : string) (id username : string)
| PMessage (message : Message.t) (senderName : string) (groupName : option string)
           (isPrivate isOwnMessage : option bool)
| PDelivered (messageId recipientId : string)
| PRead (messageId readerId : string)
| PDeleted (messageId chatId : string) (isPrivate deleteForEveryone : bool) (deletedBy : string)
| PChatDeleted (chatId : string) (isPrivate : bool)
| PTyping (userId : string) (isTyping : bool) (chatId : string)
| PUserLeft (id username serverId : string).

(** The argument of a [callback]. *)
Inductive Response :=
| RError (error : string)
| RSuccess
| RJoined (user : User.t) (users : list User.t) (groups : list Group.t)
| RUser (user : User.t)
| RUsers (users : list User.t)
| RGroup (group : Group.t)
| RGroups (groups : list Group.t)
| RGroupMessage (message : Message.t) (deliveredTo : list string) (deliveredCount : nat)
| RPrivateMessage (message : Message.t) (delivered recipientOnline : bool)
| RMessages (messages : list Message.t).

Inductive Output :=
| Emit (socketId : string) (event : string) (p : Payload)
    (* [socket.emit] and [io.to(socketId).emit] *)
| Broadcast (event : string) (p : Payload)
    (* [io.emit] *)
| Callback (socketId : string) (r : Response).
    (* [callback(...)] of the handler running for [socketId]; a handler
       written with [callback?.] sends it when the client asked for one *)

(** ** The maps *)

(** [this.users.get(id)] *)
Definition usersGet (id : string) (us : list User.t) : option User.t :=
  List.find (fun u => String.eqb (User.id u) id) us.

(** [this.users.set(user.id, user)]: an existing key keeps its place, a new
    one goes last. *)
Fixpoint usersSet (user : User.t) (us : list User.t) : list User.t :=
  match us with
  | [] => [user]
  | u :: us' =>
      if String.eqb (User.id u) (User.id user) then user :: us'
      else u :: usersSet user us'
  end.

(** An assignment to fields of the object that [find] or [get] returned:
    the first entry that satisfies [p] is the one that changes. *)
Fixpoint mutateFirst (p : User.t -> bool) (f : User.t -> User.t)
    (us : list User.t) : list User.t :=
  match us with
  | [] => []
  | u :: us' => if p u then f u :: us' else u :: mutateFirst p f us'
  end.

Definition hasId (id : string) (u : User.t) : bool := String.eqb (User.id u) id.

(** [Array.from(this.groups.values())]; the order of the array is not
    modelled. *)
Definition groupValues (s : Server) : list Group.t := (map_to_list (groups s)).*2.

(** [customSocket.data.userId] *)
Definition socketUserId (sid : string) (s : Server) : option string :=
  sockets s !! sid ≫= SocketData.userId.

(** [const user = userId ? this.users.get(userId) : undefined] *)
Definition userOf (userId : option string) (s : Server) : option User.t :=
  match userId with
  | Some uid => if Js.truthy uid then usersGet uid (users s) else None
  | None => None
  end.

(** [if (!this.messages.has(key)) this.messages.set(key, []);
     this.messages.get(key)?.push(message)] *)
Definition pushMessage (key : string) (m : Message.t)
    (ms : gmap string (list Message.t)) : gmap string (list Message.t) :=
  <[key := default [] (ms !! key) ++ [m]]> ms.

(** [[a, b].sort().join('_')] *)
Definition conversationKey (a b : string) : string :=
  let p := Js.sort2 a b in p.1 +:+ "_" +:+ p.2.

(** [const id = this.userSocketMap.get(userId); if (id) this.io.to(id).emit(...)] *)
Definition emitToUser (s : Server) (userId : string) (event : string)
    (p : Payload) : list Output :=
  match userSocketMap s !! userId with
  | Some sk => if Js.truthy sk then [Emit sk event p] else []
  | None => []
  end.

(** [members.forEach(memberId => { if (memberId !== userId) ...emit... })] *)
Definition emitToOthers (s : Server) (userId : string) (members : list string)
    (event : string) (p : Payload) : list Output :=
  flat_map (fun memberId =>
    if negb (String.eqb memberId userId) then emitToUser s memberId event p
    else []) members.

(** The audience of a [user:typing] notice: the other party of a private
    chat, the other members of a group. *)
Definition typingNotice (s : Server) (userId chatId : string)
    (isPrivate isTyping : bool) : list Output :=
  let p := PTyping userId isTyping chatId in
  if isPrivate then emitToUser s chatId "user:typing" p
  else match groups s !! chatId with
       | Some group => emitToOthers s userId (Group.members group) "user:typing" p
       | None => []
       end.

(** [list.includes(x)] *)
Definition includes (x : string) (l : list string) : bool :=
  existsb (String.eqb x) l.

(** [list.filter(id => id !== x)] *)
Definition without (x : string) (l : list string) : list string :=
  List.filter (fun id => negb (String.eqb id x)) l.

(** [users.filter(u => u.isOnline && u.serverId === this.serverId && u.id !== id)] *)
Definition onlineOthers (s : Server) (id : string) : list User.t :=
  List.filter (fun u => User.isOnline u && String.eqb (User.serverId u) (serverId s)
                        && negb (String.eqb (User.id u) id)) (users s).

(** ** Presence: [user:join], [user:reconnect], [handleUserDisconnect] *)

(** The end of [user:join], shared by its two branches. *)
Definition joined (sid : string) (user : User.t) (action : string)
    (s : Server) : Server * list Output :=
  let s := setUserSocketMap (<[User.id user := sid]> (userSocketMap s)) s in
  let s := setSockets
             (<[sid := SocketData.mk (Some (User.id user)) (Some (User.username user))]>
                (sockets s)) s in
  let onlineUsers := onlineOthers s (User.id user) in
  (s, [ Broadcast "user:joined" (PUserJoined user action);
        Emit sid "users:list" (PUsers onlineUsers);
        Emit sid "groups:list" (PGroups (groupValues s));
        Emit sid "user:registered" (PUser user);
        Callback sid (RJoined user onlineUsers (groupValues s)) ]).

(** The predicate of the [find] in [user:join]: the name as the client sent
    it is compared with the stored names. *)
Definition sameName (s : Server) (username : string) (u : User.t) : bool :=
  String.eqb (User.username u) username && String.eqb (User.serverId u) (serverId s).

Definition userJoin (sid : string) (e : Env) (username : string)
    (s : Server) : Server * list Output :=
  if negb (Js.truthy username) || (String.length (Js.trim username) =? 0)%nat then
    (s, [Callback sid (RError "Username is required")])
  else
    match List.find (sameName s username) (users s) with
    | Some existingUser =>
        if User.isOnline existingUser then
          (s, [Callback sid (RError "Username already taken")])
        else
          let user := User.setPresence true sid (now e) existingUser in
          joined sid user "reconnected"
            (setUsers (mutateFirst (sameName s username)
                         (User.setPresence true sid (now e)) (users s)) s)
    | None =>
        let user := User.mk (uuid e) (Js.trim username) sid (serverId s) [] true (now e) in
        joined sid user "joined" (setUsers (usersSet user (users s)) s)
    end.

Definition userReconnect (sid : string) (e : Env) (userId : string)
    (s : Server) : Server * list Output :=
  match usersGet userId (users s) with
  | Some found =>
      let user := User.setPresence true sid (now e) found in
      let s := setUsers (mutateFirst (hasId userId)
                           (User.setPresence true sid (now e)) (users s)) s in
      let s := setUserSocketMap (<[userId := sid]> (userSocketMap s)) s in
      let s := setSockets
                 (<[sid := SocketData.mk (Some userId) (Some (User.username user))]>
                    (sockets s)) s in
      (s, [ Broadcast "user:reconnected" (PUser user);
            Emit sid "users:list" (PUsers (onlineOthers s userId));
            Emit sid "groups:list" (PGroups (groupValues s));
            Callback sid (RUser user) ])
  | None => (s, [Callback sid (RError "User not found")])
  end.

Definition handleUserDisconnect (sid : string) (e : Env)
    (s : Server) : Server * list Output :=
  match socketUserId sid s with
  | Some userId =>
      if Js.truthy userId then
        match usersGet userId (users s) with
        | Some user =>
            let s := setUsers (mutateFirst (hasId userId)
                                 (User.setPresence false "" (now e)) (users s)) s in
            let s := setUserSocketMap (delete userId (userSocketMap s)) s in
            let s := setTypingStatus (delete userId (typingStatus s)) s in
            (s, [Broadcast "user:left"
                   (PUserLeft (User.id user) (User.username user) (User.serverId user))])
        | None => (s, [])
        end
      else (s, [])
  | None => (s, [])
  end.

(** [users:get] *)
Definition usersGetHandler (sid : string) (s : Server) : Server * list Output :=
  match usersGet (default "" (socketUserId sid s)) (users s) with
  | Some currentUser => (s, [Callback sid (RUsers (onlineOthers s (User.id currentUser)))])
  | None => (s, [Callback sid (RUsers [])])
  end.

(** ** Groups: [group:create], [group:join], [group:leave], [group:delete] *)

Definition systemMessage (e : Env) (groupId content : string) : Message.t :=
  Message.mk (uuid e) Message.KSystem "system" groupId content None (now e)
             true false None None None None None.

(** [if (!user.groups.includes(groupId)) user.groups.push(groupId)] *)
Definition addGroup (groupId : string) (u : User.t) : User.t :=
  if includes groupId (User.groups u) then u
  else User.setGroups (User.groups u ++ [groupId]) u.

Definition groupCreate (sid : string) (e : Env) (name : string)
    (description : option string) (s : Server) : Server * list Output :=
  let userId := socketUserId sid s in
  match userOf userId s with
  | None => (s, [Callback sid (RError "User not found")])
  | Some user =>
      if negb (Js.truthy name) || (String.length (Js.trim name) =? 0)%nat then
        (s, [Callback sid (RError "Group name is required")])
      else if existsb (fun g => String.eqb (Js.toLowerCase (Group.name g))
                                           (Js.toLowerCase name)) (groupValues s) then
        (s, [Callback sid (RError "Group already exists")])
      else
        let uid := default "" userId in
        let group := Group.mk (uuid e) (Js.trim name) (Js.trim <$> description)
                              uid [uid] (now e) in
        let s := setGroups (<[Group.id group := group]> (groups s)) s in
        let s := setUsers (mutateFirst (hasId uid) (addGroup (Group.id group)) (users s)) s in
        (s, [Broadcast "group:created" (PGroup group); Callback sid (RGroup group)])
  end.

(** The notices sent to the members of a group that are online and bound
    to a socket, in [group:join] ([skip] is the joiner) and [group:leave]
    (nobody is skipped: the leaver is no longer a member). *)
Definition notifyMembers (s : Server) (skip : option string) (members : list string)
    (event : string) (p : Payload) (msg : Payload) : list Output :=
  flat_map (fun memberId =>
    if match skip with Some uid => String.eqb memberId uid | None => false end then []
    else match usersGet memberId (users s) with
         | Some member =>
             if User.isOnline member then
               match userSocketMap s !! memberId with
               | Some sk => if Js.truthy sk then [Emit sk event p; Emit sk "message:received" msg]
                            else []
               | None => []
               end
             else []
         | None => []
         end) members.

Definition groupJoin (sid : string) (e : Env) (groupId : string)
    (s : Server) : Server * list Output :=
  let userId := socketUserId sid s in
  match userOf userId s, groups s !! groupId with
  | Some user, Some group =>
      let uid := default "" userId in
      if includes uid (Group.members group) then
        (s, [Callback sid (RError "Already in group")])
      else
        let group := Group.setMembers (Group.members group ++ [uid]) group in
        let s := setGroups (<[groupId := group]> (groups s)) s in
        let s := setUsers (mutateFirst (hasId uid) (addGroup groupId) (users s)) s in
        let sm := systemMessage e groupId (User.username user +:+ " joined the group") in
        let s := setMessages (pushMessage groupId sm (messages s)) s in
        let msg := PMessage sm "System" (Some (Group.name group)) None None in
        (s, notifyMembers s (Some uid) (Group.members group) "group:memberJoined"
              (PMember groupId (User.id user) (User.username user)) msg
            ++ [ Emit sid "message:received" msg;
                 Broadcast "group:updated" (PGroup group);
                 Emit sid "group:joined" (PGroup group);
                 Callback sid (RGroup group) ])
  | _, _ => (s, [Callback sid (RError "User or group not found")])
  end.

Definition groupLeave (sid : string) (e : Env) (groupId : string)
    (s : Server) : Server * list Output :=
  let userId := socketUserId sid s in
  match userOf userId s, groups s !! groupId with
  | Some user, Some group =>
      let uid := default "" userId in
      if negb (includes uid (Group.members group)) then
        (s, [Callback sid (RError "Not in group")])
      else
        let sm := systemMessage e groupId (User.username user +:+ " left the group") in
        let s := setMessages (pushMessage groupId sm (messages s)) s in
        let group := Group.setMembers (without uid (Group.members group)) group in
        let s := setGroups (<[groupId := group]> (groups s)) s in
        let s := setUsers
                   (mutateFirst (hasId uid)
                      (fun u => User.setGroups (without groupId (User.groups u)) u)
                      (users s)) s in
        let msg := PMessage sm "System" (Some (Group.name group)) None None in
        let out := notifyMembers s None (Group.members group) "group:memberLeft"
                     (PMember groupId (User.id user) (User.username user)) msg
                   ++ [ Emit sid "message:received" msg;
                        Broadcast "group:updated" (PGroup group);
                        Emit sid "group:left" (PGroupId groupId);
                        Callback sid (RGroup group) ] in
        if (length (Group.members group) =? 0)%nat then
          let s := setGroups (delete groupId (groups s)) s in
          let s := setMessages (delete groupId (messages s)) s in
          (s, out ++ [Broadcast "group:deleted" (PGroupId groupId)])
        else (s, out)
  | _, _ => (s, [Callback sid (RError "User or group not found")])
  end.

Definition groupDelete (sid : string) (groupId : string)
    (s : Server) : Server * list Output :=
  let userId := socketUserId sid s in
  match userOf userId s, groups s !! groupId with
  | Some user, Some group =>
      let uid := default "" userId in
      if negb (String.eqb (Group.creator group) uid) then
        (s, [Callback sid (RError "Only the group creator can delete the group")])
      else
        let out := flat_map (fun memberId =>
                     match usersGet memberId (users s) with
                     | Some member =>
                         if User.isOnline member
                         then emitToUser s memberId "group:deleted" (PGroupId groupId)
                         else []
                     | None => []
                     end) (Group.members group) in
        let us := fold_left (fun us memberId =>
                     mutateFirst (hasId memberId)
                       (fun u => User.setGroups (without groupId (User.groups u)) u) us)
                    (Group.members group) (users s) in
        let s := setUsers us s in
        let s := setGroups (delete groupId (groups s)) s in
        let s := setMessages (delete groupId (messages s)) s in
        (s, out ++ [Broadcast "group:deleted" (PGroupId groupId); Callback sid RSuccess])
  | _, _ => (s, [Callback sid (RError "User or group not found")])
  end.

(** ** Messages: [message:group], [message:private] *)

(** [!data.content || data.content.trim().length === 0] *)
Definition blank (content : string) : bool :=
  negb (Js.truthy content) || (String.length (Js.trim content) =? 0)%nat.

Definition messageGroup (sid : string) (e : Env) (groupId content : string)
    (attachments : option (list string)) (replyTo : option string)
    (repliedMessage : option Replied.t) (s : Server) : Server * list Output :=
  let userId := socketUserId sid s in
  match userOf userId s, groups s !! groupId with
  | Some user, Some group =>
      let uid := default "" userId in
      if negb (includes uid (Group.members group)) then
        (s, [Callback sid (RError "Not a member of this group")])
      else if blank content then
        (s, [Callback sid (RError "Message cannot be empty")])
      else
        let message := Message.mk (uuid e) Message.KGroup uid groupId (Js.trim content)
                         attachments (now e) true false (Js.orUndefined replyTo)
                         repliedMessage None None None in
        let s := setMessages (pushMessage groupId message (messages s)) s in
        let reach memberId :=
          match usersGet memberId (users s) with
          | Some member =>
              if User.isOnline member && String.eqb (User.serverId member) (serverId s)
              then match userSocketMap s !! memberId with
                   | Some sk => if Js.truthy sk then Some sk else None
                   | None => None
                   end
              else None
          | None => None
          end in
        let out := flat_map (fun memberId =>
                     match reach memberId with
                     | Some sk =>
                         Emit sk "message:received"
                           (PMessage message (User.username user) (Some (Group.name group))
                                     None None)
                         :: (if negb (String.eqb memberId uid)
                             then [Emit sid "message:delivered"
                                     (PDelivered (Message.id message) memberId)]
                             else [])
                     | None => []
                     end) (Group.members group) in
        let deliveredTo := List.filter (fun memberId => bool_decide (is_Some (reach memberId)))
                             (Group.members group) in
        (s, out ++ [Callback sid (RGroupMessage message deliveredTo (length deliveredTo))])
  | _, _ => (s, [Callback sid (RError "User or group not found")])
  end.

Definition messagePrivate (sid : string) (e : Env) (recipientId content : string)
    (attachments : option (list string)) (replyTo : option string)
    (repliedMessage : option Replied.t) (s : Server) : Server * list Output :=
  let senderId := socketUserId sid s in
  match userOf senderId s, usersGet recipientId (users s) with
  | Some sender, Some recipient =>
      let sndId := default "" senderId in
      if negb (String.eqb (User.serverId sender) (User.serverId recipient)) then
        (s, [Callback sid (RError "Cannot message users from different servers")])
      else if blank content then
        (s, [Callback sid (RError "Message cannot be empty")])
      else
        let message := Message.mk (uuid e) Message.KPrivate sndId recipientId
                         (Js.trim content) attachments (now e) (User.isOnline recipient)
                         false (Js.orUndefined replyTo) repliedMessage None None None in
        let s := setMessages
                   (pushMessage (conversationKey sndId recipientId) message (messages s)) s in
        let push :=
          if User.isOnline recipient && String.eqb (User.serverId recipient) (serverId s)
          then match userSocketMap s !! recipientId with
               | Some sk => if Js.truthy sk then Some sk else None
               | None => None
               end
          else None in
        let out := match push with
                   | Some sk =>
                       [ Emit sk "message:received"
                           (PMessage message (User.username sender) None (Some true) None);
                         Emit sid "message:delivered"
                           (PDelivered (Message.id message) recipientId) ]
                   | None => []
                   end in
        (s, out ++ [ Emit sid "message:received"
                       (PMessage message (User.username sender) None (Some true) (Some true));
                     Callback sid (RPrivateMessage message (bool_decide (is_Some push))
                                     (User.isOnline recipient)) ])
  | _, _ => (s, [Callback sid (RError "User not found")])
  end.

(** ** Reading a log: [messages:get], [messages:more], [message:read] *)

(** The log [messages:get] and [messages:more] read: for a private chat
    [userId ? [userId, chatId].sort().join('_') : ''], and no log under the
    empty key. *)
Definition logOf (sid : string) (chatId : string) (isPrivate : bool)
    (s : Server) : list Message.t :=
  if isPrivate then
    match socketUserId sid s with
    | Some userId =>
        if Js.truthy userId then
          let key := conversationKey userId chatId in
          if Js.truthy key then default [] (messages s !! key) else []
        else []
    | None => []
    end
  else default [] (messages s !! chatId).

(** [if (data.limit && !isNaN(data.limit)) messages = messages.slice(-data.limit)];
    the limit is an integer when it is given. *)
Definition messagesGet (sid : string) (chatId : string) (isPrivate : bool)
    (limit : option Z) (s : Server) : list Message.t :=
  let messages := logOf sid chatId isPrivate s in
  match limit with
  | Some n => if n =? 0 then messages else Js.slice (- n) messages
  | None => messages
  end.

(** [const limit = data.limit || 20] *)
Definition limitOr20 (limit : option Z) : Z :=
  match limit with
  | Some n => if n =? 0 then 20 else n
  | None => 20
  end.

(** [messages.filter(msg => msg.timestamp < data.before).slice(-limit)] *)
Definition readBefore (before : Z) (limit : option Z)
    (log : list Message.t) : list Message.t :=
  Js.slice (- limitOr20 limit)
           (List.filter (fun msg => Message.timestamp msg <? before) log).

Definition messagesMore (sid : string) (chatId : string) (isPrivate : bool)
    (before : Z) (limit : option Z) (s : Server) : list Message.t :=
  readBefore before limit (logOf sid chatId isPrivate s).

Definition messageRead (sid : string) (chatId : string) (isPrivate : bool)
    (s : Server) : Server * list Output :=
  match socketUserId sid s with
  | Some userId =>
      if Js.truthy userId then
        let messageKey := if isPrivate then conversationKey userId chatId else chatId in
        match messages s !! messageKey with
        | Some log =>
            let hit msg :=
              (isPrivate && String.eqb (Message.sender msg) chatId
                 && String.eqb (Message.recipient msg) userId)
              || (negb isPrivate && String.eqb (Message.recipient msg) chatId
                    && negb (String.eqb (Message.sender msg) userId)) in
            let out := flat_map (fun msg =>
                         if hit msg && negb (String.eqb (Message.sender msg) userId)
                         then emitToUser s (Message.sender msg) "message:read"
                                (PRead (Message.id msg) userId)
                         else []) log in
            (setMessages
               (<[messageKey := map (fun msg => if hit msg then Message.setRead msg else msg) log]>
                  (messages s)) s, out)
        | None => (s, [])
        end
      else (s, [])
  | None => (s, [])
  end.

(** ** Deleting: [message:delete], [chat:delete] *)

(** What [message:delete] does to the log it found. *)
Inductive DeleteResult :=
| Deleted (log : list Message.t)
| Refused (error : string).

(** One arm of [message:delete], from [findIndex] on: [senderOnly] is the
    test [message.sender !== userId] that three of the four arms make, and
    [mark] the object that replaces [messages[messageIndex]]. *)
Definition deleteIn (log : list Message.t) (messageId userId : string)
    (senderOnly : option string) (mark : Message.t -> Message.t) : DeleteResult :=
  match Js.findIndex (fun msg => String.eqb (Message.id msg) messageId) log with
  | None => Refused "Message not found"
  | Some messageIndex =>
      match log !! messageIndex with
      | Some message =>
          match senderOnly with
          | Some error =>
              if negb (String.eqb (Message.sender message) userId) then Refused error
              else Deleted (<[messageIndex := mark message]> log)
          | None => Deleted (<[messageIndex := mark message]> log)
          end
      | None => Refused "Message not found"
      end
  end.

Definition onlySender : string := "Only the message sender can delete for everyone".
Definition onlyOwn : string := "You can only delete your own messages for yourself".

Definition messageDelete (sid : string) (messageId chatId : string)
    (isPrivate deleteForEveryone : bool) (s : Server) : Server * list Output :=
  match socketUserId sid s with
  | Some userId =>
      if negb (Js.truthy userId) then (s, [Callback sid (RError "User not found")])
      else
        let key := if isPrivate then conversationKey userId chatId else chatId in
        match messages s !! key with
        | None => (s, [Callback sid (RError "Messages not found")])
        | Some log =>
            let result :=
              if deleteForEveryone then
                deleteIn log messageId userId (Some onlySender)
                         (Message.deleteForEveryone userId)
              else if isPrivate then
                deleteIn log messageId userId (Some onlyOwn) (Message.deleteForMe userId)
              else
                deleteIn log messageId userId None (Message.deleteForMe userId) in
            match result with
            | Refused error => (s, [Callback sid (RError error)])
            | Deleted log' =>
                let s := setMessages (<[key := log']> (messages s)) s in
                let notice chat := PDeleted messageId chat isPrivate deleteForEveryone userId in
                let others :=
                  if deleteForEveryone then
                    if isPrivate then emitToUser s chatId "message:deleted" (notice userId)
                    else match groups s !! chatId with
                         | Some group =>
                             emitToOthers s userId (Group.members group)
                               "message:deleted" (notice chatId)
                         | None => []
                         end
                  else [] in
                (s, others ++ [Emit sid "message:deleted" (notice chatId);
                               Callback sid RSuccess])
            end
        end
  | None => (s, [Callback sid (RError "User not found")])
  end.

Definition chatDelete (sid : string) (chatId : string) (isPrivate : bool)
    (s : Server) : Server * list Output :=
  match socketUserId sid s with
  | Some userId =>
      if negb (Js.truthy userId) then (s, [Callback sid (RError "User not found")])
      else
        let done s := (s, [Emit sid "chat:deleted" (PChatDeleted chatId isPrivate);
                           Callback sid RSuccess]) in
        if isPrivate then
          done (setMessages (delete (conversationKey userId chatId) (messages s)) s)
        else
          match groups s !! chatId with
          | Some group =>
              if String.eqb (Group.creator group) userId
              then done (setMessages (delete chatId (messages s)) s)
              else (s, [Callback sid (RError "Only group creator can delete group chat")])
          | None => (s, [Callback sid (RError "Only group creator can delete group chat")])
          end
  | None => (s, [Callback sid (RError "User not found")])
  end.

(** ** Typing indicators: [typing:start], its timer, [typing:stop], the sweep *)

(** The delay of the [setTimeout] in [typing:start], in milliseconds. *)
Definition typingWindow : Z := 3000.

Definition typingStart (sid : string) (e : Env) (chatId : string) (isPrivate : bool)
    (s : Server) : Server * list Output :=
  match socketUserId sid s with
  | Some userId =>
      if Js.truthy userId then
        let s := setTypingStatus
                   (<[userId := Typing.mk chatId isPrivate (now e)]> (typingStatus s)) s in
        let out := typingNotice s userId chatId isPrivate true in
        (setTimers (timers s ++ [Timer.mk (now e + typingWindow) userId chatId isPrivate]) s,
         out)
      else (s, [])
  | None => (s, [])
  end.

(** The callback that [typing:start] hands to [setTimeout]. *)
Definition typingTimeout (t : Timer.t) (s : Server) : Server * list Output :=
  match typingStatus s !! Timer.userId t with
  | Some currentStatus =>
      if String.eqb (Typing.chatId currentStatus) (Timer.chatId t) then
        let s := setTypingStatus (delete (Timer.userId t) (typingStatus s)) s in
        (s, typingNotice s (Timer.userId t) (Timer.chatId t) (Timer.isPrivate t) false)
      else (s, [])
  | None => (s, [])
  end.

Definition typingStop (sid : string) (chatId : string) (isPrivate : bool)
    (s : Server) : Server * list Output :=
  match socketUserId sid s with
  | Some userId =>
      if Js.truthy userId then
        let s := setTypingStatus (delete userId (typingStatus s)) s in
        (s, typingNotice s userId chatId isPrivate false)
      else (s, [])
  | None => (s, [])
  end.

(** The [setInterval] callback of [start]:
    [if (now.getTime() - status.timestamp.getTime() > 10000) delete]. *)
Definition sweep (e : Env) (s : Server) : Server :=
  setTypingStatus
    (filter (fun kv : string * Typing.t => ¬ (now e - Typing.timestamp kv.2 > 10000))
            (typingStatus s)) s.

(** ** The server as a transition system *)

(** What a client can send on a connected socket. *)
Inductive Request :=
| UserJoin (username : string)
| UserReconnect (userId : string)
| UserLeave
| UsersGet
| GroupCreate (name : string) (description : option string)
| GroupJoin (groupId : string)
| GroupLeave (groupId : string)
| GroupDelete (groupId : string)
| GroupsGet
| MessageGroup (groupId content : string) (attachments : option (list string))
               (replyTo : option string) (repliedMessage : option Replied.t)
| MessagePrivate (recipientId content : string) (attachments : option (list string))
                 (replyTo : option string) (repliedMessage : option Replied.t)
| MessagesGet (chatId : string) (isPrivate : bool) (limit : option Z)
| MessagesMore (chatId : string) (isPrivate : bool) (before : Z) (limit : option Z)
| MessageRead (chatId : string) (isPrivate : bool)
| MessageDelete (messageId chatId : string) (isPrivate deleteForEveryone : bool)
                (deletedBy : string)
| ChatDelete (chatId : string) (isPrivate : bool)
| TypingStart (chatId : string) (isPrivate : bool)
| TypingStop (chatId : string) (isPrivate : bool).

Inductive Event :=
| Connection (sid : string)          (* [io.on('connection', ...)] *)
| On (sid : string) (r : Request)    (* [socket.on(..., ...)] *)
| Disconnect (sid : string)          (* [socket.on('disconnect', ...)] *)
| TimerDue                           (* the oldest pending typing timer runs *)
| SweepDue.                          (* the interval of [start] elapses *)

Definition handle (sid : string) (e : Env) (r : Request)
    (s : Server) : Server * list Output :=
  match r with
  | UserJoin username => userJoin sid e username s
  | UserReconnect userId => userReconnect sid e userId s
  | UserLeave => handleUserDisconnect sid e s
  | UsersGet => usersGetHandler sid s
  | GroupCreate name description => groupCreate sid e name description s
  | GroupJoin groupId => groupJoin sid e groupId s
  | GroupLeave groupId => groupLeave sid e groupId s
  | GroupDelete groupId => groupDelete sid groupId s
  | GroupsGet => (s, [Callback sid (RGroups (groupValues s))])
  | MessageGroup groupId content attachments replyTo repliedMessage =>
      messageGroup sid e groupId content attachments replyTo repliedMessage s
  | MessagePrivate recipientId content attachments replyTo repliedMessage =>
      messagePrivate sid e recipientId content attachments replyTo repliedMessage s
  | MessagesGet chatId isPrivate limit =>
      (s, [Callback sid (RMessages (messagesGet sid chatId isPrivate limit s))])
  | MessagesMore chatId isPrivate before limit =>
      (s, [Callback sid (RMessages (messagesMore sid chatId isPrivate before limit s))])
  | MessageRead chatId isPrivate => messageRead sid chatId isPrivate s
  | MessageDelete messageId chatId isPrivate deleteForEveryone _ =>
      messageDelete sid messageId chatId isPrivate deleteForEveryone s
  | ChatDelete chatId isPrivate => chatDelete sid chatId isPrivate s
  | TypingStart chatId isPrivate => typingStart sid e chatId isPrivate s
  | TypingStop chatId isPrivate => typingStop sid chatId isPrivate s
  end.

(** One turn of the event loop.  A socket id names one connection: a
    handler runs only for a connected socket, and a timer runs only once it
    is due; timers are kept in the order they were set, which is the order
    they come due in, the delay being the same for all. *)
Definition step (e : Env) (ev : Event) (s : Server) : Server * list Output :=
  match ev with
  | Connection sid =>
      match sockets s !! sid with
      | Some _ => (s, [])
      | None =>
          (setSockets (<[sid := SocketData.mk None None]> (sockets s)) s,
           [Emit sid "server:info"
              (PServerInfo (serverId s) (List.filter User.isOnline (users s))
                           (groupValues s) (now e))])
      end
  | On sid r =>
      match sockets s !! sid with
      | Some _ => handle sid e r s
      | None => (s, [])
      end
  | Disconnect sid =>
      match sockets s !! sid with
      | Some _ =>
          let r := handleUserDisconnect sid e s in
          (setSockets (delete sid (sockets r.1)) r.1, r.2)
      | None => (s, [])
      end
  | TimerDue =>
      match timers s with
      | t :: rest =>
          if Timer.due t <=? now e then typingTimeout t (setTimers rest s) else (s, [])
      | [] => (s, [])
      end
  | SweepDue => (sweep e s, [])
  end.

(** [initializeSampleData] *)
Definition sampleGroups : list (string * string) :=
  [ ("General", "General discussions");
    ("Tech Talk", "Technology discussions");
    ("Random", "Random chat");
    ("Project Help", "Get help with projects") ].

Definition sampleGroup (createdAt : Z) (index : nat) (groupData : string * string) : Group.t :=
  Group.mk ("group-" +:+ pretty (index + 1)%nat) groupData.1 (Some groupData.2)
           "system" [] createdAt.

(** The state the constructor leaves, built at time [createdAt]. *)
Definition init (serverId : string) (createdAt : Z) : Server :=
  mkServer serverId [] 
    (list_to_map (imap (fun index groupData =>
                          let group := sampleGroup createdAt index groupData in
                          (Group.id group, group)) sampleGroups))
    ∅ ∅ ∅ ∅ [].

(** The states a server can be in. *)
Inductive reachable (serverId : string) : Server -> Prop :=
| reachable_init createdAt : reachable serverId (init serverId createdAt)
| reachable_step s e ev : reachable serverId s -> reachable serverId (step e ev s).1.

(** Running a list of events, each with its environment. *)
Definition run (evs : list (Env * Event)) (s : Server) : Server :=
  fold_left (fun s ev => (step ev.1 ev.2 s).1) evs s.

(** ** Predicates on states and events *)

(** The keys of the user table, in insertion order. *)
Definition userIds (us : list User.t) : list string := map User.id us.

(** The key under which [message:delete] looks for the log. *)
Definition deleteKey (userId chatId : string) (isPrivate : bool) : string :=
  if isPrivate then conversationKey userId chatId else chatId.

(** A log whose entries are in the order of their timestamps, as a log is
    when the clock that [new Date()] reads does not go back. *)
Definition chronological (log : list Message.t) : Prop :=
  StronglySorted (fun a b => Message.timestamp a <= Message.timestamp b) log.

(** A [user:join] whose name has no white space around it. *)
Definition trimmedJoin (ev : Event) : Prop :=
  match ev with
  | On _ (UserJoin username) => Js.trim username = username
  | _ => True
  end.

(** The states reached when every name sent to [user:join] is trimmed. *)
Inductive reachableTrimmed (serverId : string) : Server -> Prop :=
| trimmed_init createdAt : reachableTrimmed serverId (init serverId createdAt)
| trimmed_step s e ev :
    reachableTrimmed serverId s -> trimmedJoin ev ->
    reachableTrimmed serverId (step e ev s).1.

(** Every user is of this server, and no two have one name. *)
Definition namesDistinct (s : Server) : Prop :=
  (forall x, In x (map User.serverId (users s)) -> x = serverId s)
  /\ NoDup (map User.username (users s)).

(** ** Sessions used as examples *)

(** A stored private message, for the examples. *)
Definition msgAt (id sender recipient : string) (timestamp : Z) : Message.t :=
  Message.mk id Message.KPrivate sender recipient "hi" None timestamp
             false false None None None None None.

(** Alice and Bob connect and join, Alice writes to Bob, creates a group
    that Bob joins, and writes to the group. *)
Definition demoEvents : list (Env * Event) :=
  [ (mkEnv 1 "", Connection "s1");
    (mkEnv 2 "u1", On "s1" (UserJoin "alice"));
    (mkEnv 3 "", Connection "s2");
    (mkEnv 4 "u2", On "s2" (UserJoin "bob"));
    (mkEnv 5 "m1", On "s1" (MessagePrivate "u2" "hello bob" (Some ["a.png"]) None None));
    (mkEnv 6 "g1", On "s1" (GroupCreate "G" None));
    (mkEnv 7 "m2", On "s2" (GroupJoin "g1"));
    (mkEnv 8 "m3", On "s1" (MessageGroup "g1" "hello all" None None None)) ].

Definition demo : Server := run demoEvents (init "server1" 0).

(** The three messages stored in [demo]. *)
Definition demoM1 : Message.t :=
  Message.mk "m1" Message.KPrivate "u1" "u2" "hello bob" (Some ["a.png"]) 5
             true false None None None None None.
Definition demoM2 : Message.t := systemMessage (mkEnv 7 "m2") "g1" "bob joined the group".
Definition demoM3 : Message.t :=
  Message.mk "m3" Message.KGroup "u1" "g1" "hello all" None 8
             true false None None None None None.

(** Alice alone in the group she created. *)
Definition solo : Server :=
  run (take 2 demoEvents ++ [(mkEnv 6 "g1", On "s1" (GroupCreate "G" None))])
      (init "server1" 0).

(** Bob has left; Alice writes to him; Bob comes back on a new socket. *)
Definition bobAway : Server :=
  run [ (mkEnv 9 "", Disconnect "s2"); (mkEnv 10 "", Connection "s3") ] demo.

(** Alice is online; a second socket is connected. *)
Definition aliceOnline : Server :=
  run [ (mkEnv 1 "", Connection "s1"); (mkEnv 2 "u1", On "s1" (UserJoin "alice"));
        (mkEnv 3 "", Connection "s2") ] (init "server1" 0).

(** Alice starts typing to Bob at 1000 and again at 3000. *)
Definition typingTwice : Server :=
  run [ (mkEnv 1000 "", On "s1" (TypingStart "u2" true));
        (mkEnv 3000 "", On "s1" (TypingStart "u2" true)) ] demo.

(** ** Predicates used by the further properties *)

(** An output that is the argument of a [callback]. *)
Definition isCallback (o : Output) : bool :=
  match o with Callback _ _ => true | _ => false end.

(** What identifies a stored message: the fields no handler writes again. *)
Definition identity (m : Message.t)
    : string * Message.kind * string * string * Z :=
  (Message.id m, Message.type m, Message.sender m, Message.recipient m,
   Message.timestamp m).

(** A message as a handler makes it: some content, unread, no marker. *)
Definition newMessage (m : Message.t) : Prop :=
  Message.content m <> ""
  /\ Message.read m = false
  /\ Message.deletedForMe m = None
  /\ Message.deletedForEveryone m = None
  /\ Message.deletedBy m = None.

(** The ways a handler rewrites a stored message in place. *)
Inductive rewritten (m : Message.t) : Message.t -> Prop :=
| rewritten_kept : rewritten m m
| rewritten_read : rewritten m (Message.setRead m)
| rewritten_forMe userId : rewritten m (Message.deleteForMe userId m)
| rewritten_forEveryone userId : rewritten m (Message.deleteForEveryone userId m).

(** The ways one event changes the log under one key. *)
Inductive logStep (old : option (list Message.t)) : option (list Message.t) -> Prop :=
| logStep_same : logStep old old
| logStep_deleted : logStep old None
| logStep_pushed m : newMessage m -> logStep old (Some (default [] old ++ [m]))
| logStep_rewritten log log' :
    old = Some log -> Forall2 rewritten log log' -> logStep old (Some log').

(** A deletion marker comes with the placeholder, no attachments and the
    name of who deleted. *)
Definition markedAsDeleted (m : Message.t) : Prop :=
  Message.deletedForMe m = Some true \/ Message.deletedForEveryone m = Some true.

Definition deletedProperly (m : Message.t) : Prop :=
  markedAsDeleted m ->
  Message.content m = Message.placeholder
  /\ Message.attachments m = Some []
  /\ is_Some (Message.deletedBy m).

(** The message [message:group] stores for a post without attachments or
    reply. *)
Definition groupPost (e : Env) (userId groupId content : string) : Message.t :=
  Message.mk (uuid e) Message.KGroup userId groupId (Js.trim content) None (now e)
             true false None None None None None.

(** A member posting one text after another. *)
Definition postAll (sid groupId : string) (posts : list (Env * string)) : list (Env * Event) :=
  map (fun p => (p.1, On sid (MessageGroup groupId p.2 None None None))) posts.

(** What [message:read] may do to a stored message when [userId] reads. *)
Definition readBy (userId : string) (isPrivate : bool) (m m' : Message.t) : Prop :=
  m' = m
  \/ (m' = Message.setRead m
      /\ if isPrivate then Message.recipient m = userId else Message.sender m <> userId).

(** [userSocketMap] holds a binding for the users that are online, the
    socket the user record names, and none for the others. *)
Definition bindingOf (u : User.t) : option string :=
  if User.isOnline u then Some (User.socketId u) else None.

Definition presenceConsistent (s : Server) : Prop :=
  NoDup (userIds (users s))
  /\ forall u, In u (users s) -> userSocketMap s !! User.id u = bindingOf u.

(** Every group lists each member once, and every member is a user of the
    table. *)
Definition membersKnown (s : Server) : Prop :=
  forall groupId group, groups s !! groupId = Some group ->
    NoDup (Group.members group)
    /\ forall memberId, In memberId (Group.members group) -> In memberId (userIds (users s)).

(** [GET /groups/:groupId/users]: [None] is the 404 answer, and a member
    that [users.get] does not find is filtered out. *)
Definition groupUsersRoute (groupId : string) (s : Server) : option (list User.t) :=
  match groups s !! groupId with
  | Some group => Some (omap (fun userId => usersGet userId (users s)) (Group.members group))
  | None => None
  end.

(** The answer of [message:private] when sender and recipient are of
    different servers. *)
Definition differentServers : string := "Cannot message users from different servers".

(** A [group:create] whose name has no white space around it. *)
Definition trimmedCreate (ev : Event) : Prop :=
  match ev with
  | On _ (GroupCreate name _) => Js.trim name = name
  | _ => True
  end.

(** No two groups of the directory have one name, letter case aside. *)
Definition groupNamesDistinct (s : Server) : Prop :=
  forall id1 g1 id2 g2,
    groups s !! id1 = Some g1 -> groups s !! id2 = Some g2 ->
    Js.toLowerCase (Group.name g1) = Js.toLowerCase (Group.name g2) ->
    id1 = id2.

(** An event whose [uuidv4()] gives an id that is not in use: a new user id
    for [user:join], a new group id for [group:create]. *)
Definition freshId (s : Server) (e : Env) (ev : Event) : Prop :=
  match ev with
  | On _ (UserJoin _) => ~ In (uuid e) (userIds (users s))
  | On _ (GroupCreate _ _) => groups s !! uuid e = None
  | _ => True
  end.

(** The states reached when no id is given twice. *)
Inductive reachableFresh (serverId : string) : Server -> Prop :=
| fresh_init createdAt : reachableFresh serverId (init serverId createdAt)
| fresh_step s e ev :
    reachableFresh serverId s -> freshId s e ev ->
    reachableFresh serverId (step e ev s).1.

(** The group list of user [u] names exactly the groups, of the directory
    [gs], that list [u]. *)
Definition listsOwnGroups (gs : gmap string Group.t) (u : User.t) : Prop :=
  forall groupId,
    In groupId (User.groups u)
    <-> exists group, gs !! groupId = Some group
                      /\ In (User.id u) (Group.members group).

(** [user.groups = user.groups.filter(id => id !== groupId)] *)
Definition scrub (groupId : string) (u : User.t) : User.t :=
  User.setGroups (without groupId (User.groups u)) u.

(** Every event of a run gets a fresh id, in the state it meets. *)
Fixpoint allFresh (evs : list (Env * Event)) (s : Server) : Prop :=
  match evs with
  | [] => True
  | ev :: evs => freshId s ev.1 ev.2 /\ allFresh evs (step ev.1 ev.2 s).1
  end.

(** The test of [message:read] for a message [userId] received in the chat
    [chatId]. *)
Definition receivedIn (userId chatId : string) (isPrivate : bool) (m : Message.t) : Prop :=
  if isPrivate then Message.sender m = chatId /\ Message.recipient m = userId
  else Message.recipient m = chatId /\ Message.sender m <> userId.

(** An event that is not a [typing:start] from a socket identified as
    [userId], in the state it meets. *)
Definition noStartBy (userId : string) (s : Server) (ev : Event) : Prop :=
  match ev with
  | On sid (TypingStart _ _) => socketUserId sid s <> Some userId
  | _ => True
  end.

(** A run in which [userId] does not start typing. *)
Fixpoint quietFor (userId : string) (evs : list (Env * Event)) (s : Server) : Prop :=
  match evs with
  | [] => True
  | ev :: evs => noStartBy userId s ev.2 /\ quietFor userId evs (step ev.1 ev.2 s).1
  end.

(** * Properties *)

(** ** JavaScript helpers *)

Example trim_ex : Js.trim "  al ice " = "al ice".
Proof. reflexivity. Qed.

Lemma sort2_comm (a b : string) : Js.sort2 a b = Js.sort2 b a.
Proof.
  unfold Js.sort2, String.ltb.
  rewrite (String.compare_antisym a b).
  destruct (String.compare b a) eqn:Hba; simpl; try reflexivity.
  apply String.compare_eq_iff in Hba. now subst.
Qed.

Lemma conversationKey_comm (a b : string) : conversationKey a b = conversationKey b a.
Proof. unfold conversationKey. now rewrite sort2_comm. Qed.

Lemma truthy_conversationKey (a b : string) : Js.truthy (conversationKey a b) = true.
Proof.
  unfold conversationKey, Js.truthy.
  destruct (Js.sort2 a b) as [x y]; simpl.
  destruct x; reflexivity.
Qed.

Lemma findIndex_Some {A} (p : A -> bool) (xs : list A) (i : nat) :
  Js.findIndex p xs = Some i ->
  exists x, xs !! i = Some x /\ p x = true.
Proof.
  revert i. induction xs as [|x xs IH]; intros i; simpl; [discriminate|].
  destruct (p x) eqn:Hp.
  - intros [= <-]. now exists x.
  - destruct (Js.findIndex p xs) as [j|]; simpl; [|discriminate].
    intros [= <-]. now apply IH.
Qed.

(** [xs.slice(-n)] for [n >= 1] keeps the last [n] elements. *)
Lemma slice_last {A} (n : Z) (xs : list A) :
  1 <= n -> Js.slice (- n) xs = drop (length xs - Z.to_nat n) xs.
Proof.
  intros Hn. unfold Js.slice.
  destruct (Z.ltb_spec (- n) 0) as [_|]; [|lia].
  f_equal. lia.
Qed.

(** ** C5: the key of a private conversation *)

(** C5.  The key [[a, b].sort().join('_')] that [message:private] computes
    when [a] addresses [b] is the key that [messages:get], [messages:more],
    [message:read], [message:delete] and [chat:delete] compute when [b]
    addresses [a]; so a message pushed under the one is in the log stored
    under the other, whatever the state. *)
Theorem conversationKey_order_independent (a b : string) :
  conversationKey a b = conversationKey b a
  /\ forall (m : Message.t) (ms : gmap string (list Message.t)),
       pushMessage (conversationKey a b) m ms !! conversationKey b a
       = Some (default [] (ms !! conversationKey b a) ++ [m]).
Proof.
  split; [apply conversationKey_comm|].
  intros m ms. unfold pushMessage.
  rewrite (conversationKey_comm a b). apply lookup_insert_eq.
Qed.

(** Both parties read one log: what [messages:get] resolves for [a] asking
    about [b] is what it resolves for [b] asking about [a]. *)
Lemma logOf_private_shared (s : Server) (sa sb a b : string) :
  socketUserId sa s = Some a -> socketUserId sb s = Some b ->
  Js.truthy a = true -> Js.truthy b = true ->
  logOf sa b true s = logOf sb a true s.
Proof.
  intros Ha Hb Ta Tb. unfold logOf. rewrite Ha, Hb, Ta, Tb.
  rewrite !truthy_conversationKey.
  now rewrite (conversationKey_comm a b).
Qed.

(** ** C6: [messages:more] *)

(** C6, as stated, fails for the limit 0: [data.limit || 20] reads it as no
    limit, and a message comes back where at most 0 may. *)
Lemma readBefore_limit_zero :
  let result := readBefore 10 (Some 0) [msgAt "m1" "a" "b" 5] in
  result = [msgAt "m1" "a" "b" 5] /\ ~ (Z.of_nat (length result) <= 0).
Proof. split; [reflexivity | vm_compute; intros H; now apply H]. Qed.

(** A limit of 1 or more is taken as it is sent. *)
Lemma limitOr20_given (n : Z) : 1 <= n -> limitOr20 (Some n) = n.
Proof. intros Hn. unfold limitOr20. destruct (Z.eqb_spec n 0); [lia | reflexivity]. Qed.

(** An absent limit and the limit 0 are the limit 20. *)
Lemma readBefore_default (log : list Message.t) (t : Z) :
  readBefore t None log = readBefore t (Some 20) log
  /\ readBefore t (Some 0) log = readBefore t (Some 20) log.
Proof. split; reflexivity. Qed.

(** C6, amended.  With the limit the handler works with, [data.limit || 20]
    (the limit sent when that is 1 or more, 20 when none or 0 is sent), the
    answer of [messages:more] holds only messages stamped strictly before
    [t], at most that many of them, and they are the last so many of the
    log's messages stamped before [t], in the order of the log. *)
Theorem readBefore_bounds (log : list Message.t) (t : Z) (limit : option Z) :
  1 <= limitOr20 limit ->
  let older := List.filter (fun msg => Message.timestamp msg <? t) log in
  let result := readBefore t limit log in
  (forall msg, In msg result -> Message.timestamp msg < t)
  /\ Z.of_nat (length result) <= limitOr20 limit
  /\ length result = Nat.min (Z.to_nat (limitOr20 limit)) (length older)
  /\ exists skipped, older = skipped ++ result.
Proof.
  intros Hn older result.
  assert (Hres : result = drop (length older - Z.to_nat (limitOr20 limit)) older).
  { unfold result, readBefore. now rewrite slice_last. }
  assert (Hlen : length result = Nat.min (Z.to_nat (limitOr20 limit)) (length older)).
  { rewrite Hres, length_drop. lia. }
  repeat split.
  - intros msg Hin. rewrite Hres in Hin.
    assert (Hold : In msg older).
    { rewrite <- (take_drop (length older - Z.to_nat (limitOr20 limit)) older).
      apply in_or_app. now right. }
    apply filter_In in Hold as [_ Hts]. now apply Z.ltb_lt.
  - lia.
  - exact Hlen.
  - exists (take (length older - Z.to_nat (limitOr20 limit)) older).
    rewrite Hres. symmetry. apply take_drop.
Qed.

Lemma readBefore_bounds_witness :
  1 <= limitOr20 (Some 2)
  /\ let log := [msgAt "m1" "a" "b" 1; msgAt "m2" "b" "a" 2;
                 msgAt "m3" "a" "b" 3; msgAt "m4" "a" "b" 4] in
     let older := List.filter (fun msg => Message.timestamp msg <? 4) log in
     let result := readBefore 4 (Some 2) log in
     (forall msg, In msg result -> Message.timestamp msg < 4)
     /\ Z.of_nat (length result) <= limitOr20 (Some 2)
     /\ length result = Nat.min (Z.to_nat (limitOr20 (Some 2))) (length older)
     /\ exists skipped, older = skipped ++ result.
Proof.
  split; [cbn; lia|].
  apply (readBefore_bounds _ 4 (Some 2)). cbn; lia.
Defined.

Lemma chronological_filter (p : Message.t -> bool) (log : list Message.t) :
  chronological log -> chronological (List.filter p log).
Proof.
  unfold chronological. induction 1 as [|a l Hl IH Ha]; simpl; [constructor|].
  destruct (p a); [|assumption].
  constructor; [assumption|].
  rewrite List.Forall_forall in *. intros x Hx.
  apply filter_In in Hx as [Hx _]. now apply Ha.
Qed.

(** On a chronological log the answer of [messages:more] is chronological,
    and no message it leaves out is newer than one it returns. *)
Lemma readBefore_chronological (log : list Message.t) (t : Z) (limit : option Z)
    (skipped : list Message.t) :
  chronological log ->
  List.filter (fun msg => Message.timestamp msg <? t) log
  = skipped ++ readBefore t limit log ->
  chronological (readBefore t limit log)
  /\ forall m m', In m skipped -> In m' (readBefore t limit log) ->
       Message.timestamp m <= Message.timestamp m'.
Proof.
  intros Hlog Hsplit.
  apply (chronological_filter (fun msg => Message.timestamp msg <? t)) in Hlog.
  rewrite Hsplit in Hlog. unfold chronological in *. split.
  - now apply StronglySorted_app_1_r in Hlog.
  - intros m m' Hm Hm'. rewrite <- list_elem_of_In in Hm, Hm'.
    now apply (StronglySorted_app_1_elem_of _ _ _ m m' Hlog).
Qed.

Example demo_messages :
  messages demo !! "u1_u2" = Some [demoM1] /\ messages demo !! "g1" = Some [demoM2; demoM3].
Proof. split; reflexivity. Qed.

(** ** C7, C9, C3: [message:delete] *)

(** [message:delete] once the socket is identified and the log is found. *)
Lemma messageDelete_found (sid : string) (s : Server)
    (userId messageId chatId : string) (isPrivate deleteForEveryone : bool)
    (log : list Message.t) :
  socketUserId sid s = Some userId -> Js.truthy userId = true ->
  messages s !! deleteKey userId chatId isPrivate = Some log ->
  messageDelete sid messageId chatId isPrivate deleteForEveryone s =
    match (if deleteForEveryone then
             deleteIn log messageId userId (Some onlySender)
                      (Message.deleteForEveryone userId)
           else if isPrivate then
             deleteIn log messageId userId (Some onlyOwn) (Message.deleteForMe userId)
           else deleteIn log messageId userId None (Message.deleteForMe userId)) with
    | Refused error => (s, [Callback sid (RError error)])
    | Deleted log' =>
        let s' := setMessages (<[deleteKey userId chatId isPrivate := log']> (messages s)) s in
        let notice chat := PDeleted messageId chat isPrivate deleteForEveryone userId in
        (s',
         (if deleteForEveryone then
            if isPrivate then emitToUser s' chatId "message:deleted" (notice userId)
            else match groups s' !! chatId with
                 | Some group => emitToOthers s' userId (Group.members group)
                                   "message:deleted" (notice chatId)
                 | None => []
                 end
          else []) ++ [Emit sid "message:deleted" (notice chatId); Callback sid RSuccess])
    end.
Proof.
  intros Hid Ht Hlog. unfold messageDelete, deleteKey in *.
  rewrite Hid, Ht. simpl. now rewrite Hlog.
Qed.

(** [deleteIn] when the sender test is made and fails. *)
Lemma deleteIn_not_sender (log : list Message.t) (messageId userId error : string)
    (mark : Message.t -> Message.t) (i : nat) (message : Message.t) :
  Js.findIndex (fun msg => String.eqb (Message.id msg) messageId) log = Some i ->
  log !! i = Some message -> Message.sender message <> userId ->
  deleteIn log messageId userId (Some error) mark = Refused error.
Proof.
  intros Hi Hm Hne. unfold deleteIn. rewrite Hi, Hm.
  apply String.eqb_neq in Hne. now rewrite Hne.
Qed.

(** C7.  A [message:delete] with [deleteForEveryone] from an identified
    user who is not the sender of the message found is answered with "Only
    the message sender can delete for everyone" and leaves the whole state,
    so the stored message with its content, attachments and markers, as it
    was; in a private conversation and in a group alike. *)
Theorem deleteForEveryone_by_non_sender (sid : string) (e : Env) (s : Server)
    (userId messageId chatId deletedBy : string) (isPrivate : bool)
    (log : list Message.t) (i : nat) (message : Message.t) :
  socketUserId sid s = Some userId -> Js.truthy userId = true ->
  messages s !! deleteKey userId chatId isPrivate = Some log ->
  Js.findIndex (fun msg => String.eqb (Message.id msg) messageId) log = Some i ->
  log !! i = Some message ->
  Message.sender message <> userId ->
  handle sid e (MessageDelete messageId chatId isPrivate true deletedBy) s
  = (s, [Callback sid (RError onlySender)]).
Proof.
  intros Hid Ht Hlog Hi Hm Hne. simpl.
  rewrite (messageDelete_found _ _ _ _ _ _ _ _ Hid Ht Hlog).
  now rewrite (deleteIn_not_sender _ _ _ _ _ _ _ Hi Hm Hne).
Qed.

Lemma deleteForEveryone_by_non_sender_witness :
  handle "s2" (mkEnv 9 "") (MessageDelete "m1" "u1" true true "u2") demo
  = (demo, [Callback "s2" (RError onlySender)])
  /\ handle "s2" (mkEnv 9 "") (MessageDelete "m3" "g1" false true "u2") demo
     = (demo, [Callback "s2" (RError onlySender)]).
Proof.
  split.
  - apply (deleteForEveryone_by_non_sender "s2" _ demo "u2" "m1" "u1" "u2" true
             [demoM1] 0%nat demoM1); try reflexivity.
    intros H; discriminate H.
  - apply (deleteForEveryone_by_non_sender "s2" _ demo "u2" "m3" "g1" "u2" false
             [demoM2; demoM3] 1%nat demoM3); try reflexivity.
    intros H; discriminate H.
Defined.

(** C9.  "Delete for me" differs between the two kinds of conversation.  In
    a private one the identified requester must be the sender of the
    message found: anyone else is answered "You can only delete your own
    messages for yourself" and nothing changes.  In a group no such test is
    made: whoever the sender is, the request succeeds and the one stored
    entry is replaced by its copy with the placeholder as content. *)
Theorem deleteForMe_private_vs_group (sid : string) (e : Env) (s : Server)
    (userId messageId chatId deletedBy : string)
    (log : list Message.t) (i : nat) (message : Message.t) :
  socketUserId sid s = Some userId -> Js.truthy userId = true ->
  Js.findIndex (fun msg => String.eqb (Message.id msg) messageId) log = Some i ->
  log !! i = Some message ->
  (messages s !! conversationKey userId chatId = Some log ->
   Message.sender message <> userId ->
   handle sid e (MessageDelete messageId chatId true false deletedBy) s
   = (s, [Callback sid (RError onlyOwn)]))
  /\ (messages s !! chatId = Some log ->
      handle sid e (MessageDelete messageId chatId false false deletedBy) s
      = (setMessages (<[chatId := <[i := Message.deleteForMe userId message]> log]>
                        (messages s)) s,
         [Emit sid "message:deleted" (PDeleted messageId chatId false false userId);
          Callback sid RSuccess])
      /\ Message.content (Message.deleteForMe userId message) = Message.placeholder).
Proof.
  intros Hid Ht Hi Hm. split.
  - intros Hlog Hne. simpl.
    rewrite (messageDelete_found sid s userId messageId chatId true false log Hid Ht Hlog).
    now rewrite (deleteIn_not_sender _ _ _ _ _ _ _ Hi Hm Hne).
  - intros Hlog. split; [|reflexivity]. simpl.
    rewrite (messageDelete_found sid s userId messageId chatId false false log Hid Ht Hlog).
    unfold deleteIn. now rewrite Hi, Hm.
Qed.

Lemma deleteForMe_private_vs_group_witness :
  (* Bob, in his private chat with Alice, on Alice's message *)
  handle "s2" (mkEnv 9 "") (MessageDelete "m1" "u1" true false "u2") demo
  = (demo, [Callback "s2" (RError onlyOwn)])
  (* Bob, in the group, on Alice's message *)
  /\ (handle "s2" (mkEnv 9 "") (MessageDelete "m3" "g1" false false "u2") demo).2
     = [Emit "s2" "message:deleted" (PDeleted "m3" "g1" false false "u2");
        Callback "s2" RSuccess].
Proof.
  split.
  - apply (deleteForMe_private_vs_group "s2" (mkEnv 9 "") demo "u2" "m1" "u1" "u2"
             [demoM1] 0%nat demoM1); try reflexivity.
    intros H; discriminate H.
  - rewrite (proj1 (proj2 (deleteForMe_private_vs_group "s2" (mkEnv 9 "") demo
                             "u2" "m3" "g1" "u2" [demoM2; demoM3] 1%nat demoM3
                             eq_refl eq_refl eq_refl eq_refl) eq_refl)).
    reflexivity.
Defined.

(** What "delete for me" writes: the placeholder, no attachments, the
    marker and the requester; every other field is the message's own. *)
Lemma deleteForMe_fields (userId : string) (m : Message.t) :
  let m' := Message.deleteForMe userId m in
  Message.content m' = Message.placeholder
  /\ Message.attachments m' = Some []
  /\ Message.deletedForMe m' = Some true
  /\ Message.deletedBy m' = Some userId
  /\ Message.id m' = Message.id m /\ Message.type m' = Message.type m
  /\ Message.sender m' = Message.sender m /\ Message.recipient m' = Message.recipient m
  /\ Message.timestamp m' = Message.timestamp m
  /\ Message.delivered m' = Message.delivered m /\ Message.read m' = Message.read m
  /\ Message.replyTo m' = Message.replyTo m
  /\ Message.repliedMessage m' = Message.repliedMessage m
  /\ Message.deletedForEveryone m' = Message.deletedForEveryone m.
Proof. repeat split. Qed.

(** C3, as stated, fails: Alice deletes her message to Bob "for me", and the
    one stored entry, which is what Bob is sent when he asks for the
    conversation, has lost its content and its attachment. *)
Lemma private_deleteForMe_rewrites_stored_entry :
  let s' := (handle "s1" (mkEnv 9 "") (MessageDelete "m1" "u2" true false "u1") demo).1 in
  messagesGet "s2" "u1" true None demo = [demoM1]
  /\ Message.content demoM1 = "hello bob"
  /\ Message.attachments demoM1 = Some ["a.png"]
  /\ messagesGet "s2" "u1" true None s' = [Message.deleteForMe "u1" demoM1]
  /\ Message.content (Message.deleteForMe "u1" demoM1) = "This message was deleted"
  /\ Message.attachments (Message.deleteForMe "u1" demoM1) = Some [].
Proof. repeat split; reflexivity. Qed.

(** C3, amended.  A [message:delete] on a private conversation with
    [deleteForEveryone = false] is refused, and changes nothing, in exactly
    four cases: the socket is not identified, there is no log for the pair,
    no message of the log has the id, or the requester is not the sender of
    the message found.  Otherwise, when the requester is the sender, it
    replaces that one stored entry, shared by both parties, by its copy that
    [deleteForMe_fields] describes; the other entries of the log, the other
    logs and the rest of the state stay as they were, and only the
    requester is notified. *)
Theorem private_deleteForMe_effect (sid : string) (s : Server)
    (messageId chatId : string) :
  let r := messageDelete sid messageId chatId true false s in
  let refused error := r = (s, [Callback sid (RError error)]) in
  (socketUserId sid s = None -> refused "User not found")
  /\ forall userId, socketUserId sid s = Some userId ->
     (Js.truthy userId = false -> refused "User not found")
     /\ (Js.truthy userId = true ->
         let key := conversationKey userId chatId in
         (messages s !! key = None -> refused "Messages not found")
         /\ forall log, messages s !! key = Some log ->
            let found := Js.findIndex (fun msg => String.eqb (Message.id msg) messageId) log in
            (found = None -> refused "Message not found")
            /\ forall i, found = Some i ->
               exists message,
                 log !! i = Some message
                 /\ Message.id message = messageId
                 /\ (Message.sender message <> userId -> refused onlyOwn)
                 /\ (Message.sender message = userId ->
                     r = (setMessages
                            (<[key := <[i := Message.deleteForMe userId message]> log]>
                               (messages s)) s,
                          [Emit sid "message:deleted"
                             (PDeleted messageId chatId true false userId);
                           Callback sid RSuccess]))).
Proof.
  intros r refused. subst r refused. simpl. split.
  { intros Hnone. unfold messageDelete. now rewrite Hnone. }
  intros userId Hid. split.
  { intros Hf. unfold messageDelete. now rewrite Hid, Hf. }
  intros Ht. split.
  { intros Hnone. unfold messageDelete. rewrite Hid, Ht. simpl. now rewrite Hnone. }
  intros log Hlog.
  rewrite (messageDelete_found sid s userId messageId chatId true false log Hid Ht Hlog).
  unfold deleteIn. split.
  { intros Hf. now rewrite Hf. }
  intros i Hi. rewrite Hi.
  destruct (findIndex_Some _ _ _ Hi) as (message & Hm & Hp).
  apply String.eqb_eq in Hp. exists message. rewrite Hm.
  repeat split; try assumption.
  - intros Hne. apply String.eqb_neq in Hne. now rewrite Hne.
  - intros Heq. apply String.eqb_eq in Heq. now rewrite Heq.
Qed.

Lemma private_deleteForMe_effect_witness :
  messageDelete "s1" "m1" "u2" true false demo
  = (setMessages (<[conversationKey "u1" "u2" := <[0%nat := Message.deleteForMe "u1" demoM1]> [demoM1]]>
                    (messages demo)) demo,
     [Emit "s1" "message:deleted" (PDeleted "m1" "u2" true false "u1");
      Callback "s1" RSuccess])
  /\ messageDelete "s2" "m1" "u1" true false demo = (demo, [Callback "s2" (RError onlyOwn)]).
Proof.
  split.
  - destruct (proj2 (private_deleteForMe_effect "s1" demo "m1" "u2") "u1" eq_refl) as [_ H].
    destruct (H eq_refl) as [_ H2]. destruct (H2 [demoM1] eq_refl) as [_ H3].
    destruct (H3 0%nat eq_refl) as (m & Hm & _ & _ & Hover).
    simpl in Hm. injection Hm as <-. exact (Hover eq_refl).
  - destruct (proj2 (private_deleteForMe_effect "s2" demo "m1" "u1") "u2" eq_refl) as [_ H].
    destruct (H eq_refl) as [_ H2]. destruct (H2 [demoM1] eq_refl) as [_ H3].
    destruct (H3 0%nat eq_refl) as (m & Hm & _ & Hnot & _).
    simpl in Hm. injection Hm as <-. apply Hnot. intros Heq. discriminate Heq.
Defined.

(** ** The user table *)

Lemma usersGet_Some_hasId (id : string) (us : list User.t) (u : User.t) :
  usersGet id us = Some u -> In u us /\ User.id u = id.
Proof.
  unfold usersGet. intros H. apply find_some in H as [Hin Heq].
  split; [assumption | now apply String.eqb_eq].
Qed.

Lemma usersGet_is_Some (id : string) (us : list User.t) :
  is_Some (usersGet id us) <-> In id (userIds us).
Proof.
  unfold usersGet, userIds. induction us as [|u us IH]; simpl.
  - split; [intros [? [=]] | intros []].
  - destruct (String.eqb_spec (User.id u) id) as [->|Hne].
    + split; eauto.
    + rewrite IH. split; [auto | intros [?|?]; [contradiction | assumption]].
Qed.

Lemma userIds_mutateFirst (p : User.t -> bool) (f : User.t -> User.t) (us : list User.t) :
  (forall u, User.id (f u) = User.id u) ->
  userIds (mutateFirst p f us) = userIds us.
Proof.
  intros Hf. unfold userIds. induction us as [|u us IH]; simpl; [reflexivity|].
  destruct (p u); simpl; [now rewrite Hf | now rewrite IH].
Qed.

Lemma userIds_usersSet (user : User.t) (us : list User.t) (id : string) :
  In id (userIds (usersSet user us)) <-> id = User.id user \/ In id (userIds us).
Proof.
  unfold userIds. induction us as [|u us IH]; simpl.
  - intuition.
  - destruct (String.eqb_spec (User.id u) (User.id user)) as [Heq|Hne]; simpl.
    + rewrite Heq. intuition.
    + rewrite IH. intuition.
Qed.

(** Mutating the object that [get] returned. *)
Lemma usersGet_mutateFirst (id : string) (f : User.t -> User.t) (us : list User.t) :
  (forall u, User.id (f u) = User.id u) ->
  usersGet id (mutateFirst (hasId id) f us) = f <$> usersGet id us.
Proof.
  intros Hf. unfold usersGet, hasId. induction us as [|u us IH]; simpl; [reflexivity|].
  destruct (String.eqb (User.id u) id) eqn:Hu; simpl.
  - now rewrite Hf, Hu.
  - now rewrite Hu.
Qed.

Lemma socketUserId_connected (sid : string) (s : Server) (userId : string) :
  socketUserId sid s = Some userId -> is_Some (sockets s !! sid).
Proof. unfold socketUserId. destruct (sockets s !! sid); [eauto | discriminate]. Qed.

(** ** [handleUserDisconnect] *)

(** The state after [handleUserDisconnect] for an identified socket whose
    user is in the table. *)
Lemma handleUserDisconnect_known (sid : string) (e : Env) (s : Server)
    (userId : string) (user : User.t) :
  socketUserId sid s = Some userId -> Js.truthy userId = true ->
  usersGet userId (users s) = Some user ->
  let s' := (handleUserDisconnect sid e s).1 in
  typingStatus s' !! userId = None
  /\ userSocketMap s' !! userId = None
  /\ usersGet userId (users s') = Some (User.setPresence false "" (now e) user)
  /\ sockets s' = sockets s.
Proof.
  intros Hid Ht Hu. unfold handleUserDisconnect. rewrite Hid, Ht, Hu. simpl.
  repeat split; try apply lookup_delete_eq.
  rewrite usersGet_mutateFirst by reflexivity. now rewrite Hu.
Qed.

(** ** Case analysis on the handlers *)

Ltac handlers :=
  unfold step, handle, userJoin, joined, userReconnect, handleUserDisconnect,
    usersGetHandler, groupCreate, groupJoin, groupLeave, groupDelete, messageGroup,
    messagePrivate, messageRead, messageDelete, chatDelete, typingStart, typingStop,
    typingTimeout, sweep in *.

(** Every event, every request and every branch a handler takes. *)
Ltac each_branch ev :=
  let sid := fresh "sid" in
  let r := fresh "r" in
  destruct ev as [sid|sid r|sid| |]; [|destruct r|..];
  handlers; repeat case_match; simpl in *.

Lemma reachable_run (serverId : string) (evs : list (Env * Event)) (s : Server) :
  reachable serverId s -> reachable serverId (run evs s).
Proof.
  revert s. induction evs as [|[e ev] evs IH]; intros s Hs; simpl; [assumption|].
  apply IH. now apply reachable_step.
Qed.

(** ** C4: groups without members *)

(** C4, as stated, fails in the state the constructor leaves:
    [initializeSampleData] puts four groups with [members: []] in the
    directory. *)
Lemma sample_groups_have_no_members :
  reachable "server1" (init "server1" 0)
  /\ exists g, groups (init "server1" 0) !! "group-1" = Some g /\ Group.members g = [].
Proof.
  split; [constructor|].
  exists (sampleGroup 0 0 ("General", "General discussions")). split; reflexivity.
Qed.

(** No event puts a group without members in the directory. *)
Lemma step_no_new_empty_group (e : Env) (ev : Event) (s : Server)
    (gid : string) (g : Group.t) :
  groups (step e ev s).1 !! gid = Some g -> Group.members g = [] ->
  groups s !! gid = Some g.
Proof.
  intros Hg Hm. each_branch ev; try assumption;
    try (simplify_eq; simpl in *; assumption).
  - (* group:create *)
    apply lookup_insert_Some in Hg as [[_ <-]|[_ Hg]]; [discriminate Hm | assumption].
  - (* group:join *)
    apply lookup_insert_Some in Hg as [[_ <-]|[_ Hg]]; [|assumption].
    simpl in Hm. now apply app_eq_nil in Hm as [_ [=]].
  - (* group:leave, the last member *)
    apply lookup_delete_Some in Hg as [Hne Hg].
    now rewrite lookup_insert_ne in Hg by assumption.
  - (* group:leave, members remain *)
    apply lookup_insert_Some in Hg as [[_ <-]|[_ Hg]]; [|assumption].
    simpl in Hm. rewrite Hm in *. discriminate.
  - (* group:delete *)
    now apply lookup_delete_Some in Hg as [_ Hg].
Qed.

(** The groups of [initializeSampleData]. *)
Lemma init_groups (serverId : string) (createdAt : Z) (gid : string) (g : Group.t) :
  groups (init serverId createdAt) !! gid = Some g ->
  exists index groupData,
    sampleGroups !! index = Some groupData
    /\ g = sampleGroup createdAt index groupData
    /\ gid = Group.id g.
Proof.
  unfold init, sampleGroups. simpl. intros H.
  repeat (apply lookup_insert_Some in H as [[<- <-]|[_ H]];
          [eexists _, _; split; [|split; reflexivity];
           first [ exact (eq_refl : _ !! 0%nat = _) | exact (eq_refl : _ !! 1%nat = _)
                 | exact (eq_refl : _ !! 2%nat = _) | exact (eq_refl : _ !! 3%nat = _) ] |]).
  now rewrite lookup_empty in H.
Qed.

(** [group:leave] by the last member. *)
Lemma groupLeave_last (sid : string) (e : Env) (s : Server) (groupId userId : string)
    (user : User.t) (group : Group.t) :
  socketUserId sid s = Some userId -> Js.truthy userId = true ->
  usersGet userId (users s) = Some user ->
  groups s !! groupId = Some group ->
  includes userId (Group.members group) = true ->
  without userId (Group.members group) = [] ->
  let r := step e (On sid (GroupLeave groupId)) s in
  groups r.1 !! groupId = None
  /\ messages r.1 !! groupId = None
  /\ last r.2 = Some (Broadcast "group:deleted" (PGroupId groupId)).
Proof.
  intros Hid Ht Hu Hg Hin Hout. simpl.
  destruct (socketUserId_connected _ _ _ Hid) as [d ->].
  unfold groupLeave, userOf. rewrite Hid, Ht, Hu, Hg. simpl. rewrite Hin. simpl.
  rewrite Hout. simpl.
  repeat split; try apply lookup_delete_eq.
Qed.

(** C4, amended.  In every reachable state a group without members is one
    of the four groups of [initializeSampleData], as the constructor made it
    (no handler has touched it); and when [group:leave] takes the last member
    out, the group and its log are deleted by that same handler, which then
    broadcasts [group:deleted]. *)
Theorem empty_group_is_untouched_sample (serverId : string) (s : Server) :
  reachable serverId s ->
  (exists createdAt, forall gid g,
      groups s !! gid = Some g -> Group.members g = [] ->
      exists index groupData,
        sampleGroups !! index = Some groupData
        /\ g = sampleGroup createdAt index groupData
        /\ gid = Group.id g)
  /\ (forall sid e groupId userId user group,
        socketUserId sid s = Some userId -> Js.truthy userId = true ->
        usersGet userId (users s) = Some user ->
        groups s !! groupId = Some group ->
        includes userId (Group.members group) = true ->
        without userId (Group.members group) = [] ->
        let r := step e (On sid (GroupLeave groupId)) s in
        groups r.1 !! groupId = None
        /\ messages r.1 !! groupId = None
        /\ last r.2 = Some (Broadcast "group:deleted" (PGroupId groupId))).
Proof.
  intros Hs. split;
    [|intros sid e groupId userId user group H1 H2 H3 H4 H5 H6;
      exact (groupLeave_last sid e s groupId userId user group H1 H2 H3 H4 H5 H6)].
  induction Hs as [createdAt|s e ev Hs [createdAt IH]].
  - exists createdAt. intros gid g Hg _. now apply (init_groups serverId).
  - exists createdAt. intros gid g Hg Hm.
    apply IH; [|assumption]. now apply (step_no_new_empty_group e ev).
Qed.

Lemma empty_group_is_untouched_sample_witness :
  reachable "server1" solo
  /\ (Group.members <$> groups solo !! "g1") = Some ["u1"]
  /\ let r := step (mkEnv 7 "m1") (On "s1" (GroupLeave "g1")) solo in
     groups r.1 !! "g1" = None
     /\ messages r.1 !! "g1" = None
     /\ last r.2 = Some (Broadcast "group:deleted" (PGroupId "g1")).
Proof.
  assert (Hr : reachable "server1" solo) by (apply reachable_run; constructor).
  split; [exact Hr|]. split; [reflexivity|].
  apply (proj2 (empty_group_is_untouched_sample "server1" solo Hr)
           "s1" (mkEnv 7 "m1") "g1" "u1"
           (User.mk "u1" "alice" "s1" "server1" ["g1"] true 2)
           (Group.mk "g1" "G" None "u1" ["u1"] 6)); reflexivity.
Defined.

(** ** C10: identified sockets name users of the table, and disconnecting *)

Lemma addGroup_id (groupId : string) (u : User.t) : User.id (addGroup groupId u) = User.id u.
Proof. unfold addGroup. now destruct (includes _ _). Qed.

(** The loop of [group:delete] over the members. *)
Lemma userIds_scrub (groupId : string) (members : list string) (us : list User.t) :
  userIds (fold_left (fun us memberId =>
             mutateFirst (hasId memberId)
               (fun u => User.setGroups (without groupId (User.groups u)) u) us)
             members us) = userIds us.
Proof.
  revert us. induction members as [|m members IH]; intros us; simpl; [reflexivity|].
  rewrite IH. now apply userIds_mutateFirst.
Qed.

Ltac ids_kept :=
  rewrite ?userIds_scrub, ?userIds_mutateFirst
    by (intros; first [reflexivity | apply addGroup_id]).

(** Users are never removed. *)
Lemma step_userIds (e : Env) (ev : Event) (s : Server) (id : string) :
  In id (userIds (users s)) -> In id (userIds (users (step e ev s).1)).
Proof.
  intros Hin. each_branch ev; ids_kept; try assumption.
  apply userIds_usersSet. now right.
Qed.

(** A socket gets its [userId] from [user:join] or [user:reconnect], and
    then it is the id of a user of the table. *)
Lemma step_identified (e : Env) (ev : Event) (s : Server) (sk uid : string) :
  socketUserId sk (step e ev s).1 = Some uid ->
  socketUserId sk s = Some uid \/ In uid (userIds (users (step e ev s).1)).
Proof.
  unfold socketUserId.
  intros H. each_branch ev; ids_kept; auto.
  all: destruct (decide (sid = sk)) as [->|Hne];
    [ rewrite ?lookup_insert_eq, ?lookup_delete_eq in H
    | rewrite ?lookup_insert_ne, ?lookup_delete_ne in H by assumption; auto ];
    simpl in H; try discriminate H; injection H as <-; right.
  - match goal with H : find _ _ = Some _ |- _ => apply find_some in H as [Hin _] end.
    now apply in_map.
  - apply userIds_usersSet. now left.
  - apply usersGet_is_Some. eauto.
Qed.

Lemma identified_known (serverId : string) (s : Server) (sid userId : string) :
  reachable serverId s -> socketUserId sid s = Some userId ->
  is_Some (usersGet userId (users s)).
Proof.
  intros Hs. revert sid userId.
  induction Hs as [createdAt|s e ev Hs IH]; intros sid userId Hid.
  - discriminate Hid.
  - apply usersGet_is_Some.
    destruct (step_identified _ _ _ _ _ Hid) as [Hold|Hnew]; [|assumption].
    apply step_userIds. apply usersGet_is_Some. eauto.
Qed.

(** C10.  When a socket that is identified (its [userId] is set, to a
    non-empty id) sends [user:leave] or disconnects, in any reachable state,
    [handleUserDisconnect] removes the user's entry from [typingStatus] and
    the user's binding from [userSocketMap], besides marking the user
    offline with an empty [socketId] and the time as [lastSeen]. *)
Theorem disconnect_clears_typing_and_binding (serverId : string) (s : Server)
    (sid userId : string) (e : Env) (ev : Event) :
  reachable serverId s ->
  socketUserId sid s = Some userId -> Js.truthy userId = true ->
  ev = On sid UserLeave \/ ev = Disconnect sid ->
  let s' := (step e ev s).1 in
  typingStatus s' !! userId = None
  /\ userSocketMap s' !! userId = None
  /\ exists user, usersGet userId (users s) = Some user
       /\ usersGet userId (users s') = Some (User.setPresence false "" (now e) user).
Proof.
  intros Hs Hid Ht Hev.
  destruct (identified_known _ _ _ _ Hs Hid) as [user Hu].
  destruct (socketUserId_connected _ _ _ Hid) as [d Hd].
  destruct (handleUserDisconnect_known sid e s userId user Hid Ht Hu) as (H1 & H2 & H3 & _).
  destruct Hev as [-> | ->]; simpl; rewrite Hd; simpl; eauto.
Qed.

Lemma disconnect_clears_typing_and_binding_witness :
  let typing := (step (mkEnv 9 "") (On "s2" (TypingStart "u1" true)) demo).1 in
  is_Some (typingStatus typing !! "u2")
  /\ userSocketMap typing !! "u2" = Some "s2"
  /\ let s' := (step (mkEnv 10 "") (Disconnect "s2") typing).1 in
     typingStatus s' !! "u2" = None
     /\ userSocketMap s' !! "u2" = None
     /\ exists user, usersGet "u2" (users typing) = Some user
          /\ usersGet "u2" (users s') = Some (User.setPresence false "" 10 user).
Proof.
  intros typing. split; [now eexists|]. split; [reflexivity|].
  apply (disconnect_clears_typing_and_binding "server1" typing "s2" "u2"
           (mkEnv 10 "") (Disconnect "s2")).
  - apply reachable_step. unfold demo. apply reachable_run. constructor.
  - reflexivity.
  - reflexivity.
  - now right.
Defined.

(** ** C8: a private message to a recipient who is offline *)

(** C8.  An identified sender writes a non-blank private message to a user
    of the table, of the same server, who is offline.  The callback reports
    [delivered: false] and [recipientOnline: false], nothing is pushed but
    the sender's own echo, and the message is appended to the log under the
    key of the pair; when the recipient then reconnects on any connected
    socket and asks for the conversation with the sender, the answer is that
    log, the message last. *)
Theorem private_message_to_offline_recipient (sid : string) (e : Env) (s : Server)
    (senderId recipientId content : string) (attachments : option (list string))
    (replyTo : option string) (repliedMessage : option Replied.t)
    (sender recipient : User.t) :
  socketUserId sid s = Some senderId -> Js.truthy senderId = true ->
  usersGet senderId (users s) = Some sender ->
  usersGet recipientId (users s) = Some recipient -> Js.truthy recipientId = true ->
  User.serverId sender = User.serverId recipient ->
  blank content = false ->
  User.isOnline recipient = false ->
  let r := step e (On sid (MessagePrivate recipientId content attachments
                             replyTo repliedMessage)) s in
  let message := Message.mk (uuid e) Message.KPrivate senderId recipientId
                   (Js.trim content) attachments (now e) false false
                   (Js.orUndefined replyTo) repliedMessage None None None in
  let key := conversationKey senderId recipientId in
  let log := default [] (messages s !! key) ++ [message] in
  r.2 = [ Emit sid "message:received"
            (PMessage message (User.username sender) None (Some true) (Some true));
          Callback sid (RPrivateMessage message false false) ]
  /\ messages r.1 !! key = Some log
  /\ forall sid' e',
       is_Some (sockets r.1 !! sid') ->
       let back := (step e' (On sid' (UserReconnect recipientId)) r.1).1 in
       socketUserId sid' back = Some recipientId
       /\ messagesGet sid' senderId true None back = log.
Proof.
  intros Hid Ht Hs Hr Htr Hsrv Hb Hoff r message key log.
  destruct (socketUserId_connected _ _ _ Hid) as [d Hd].
  assert (Hstep : r = (setMessages (pushMessage key message (messages s)) s,
                       [ Emit sid "message:received"
                           (PMessage message (User.username sender) None (Some true)
                                     (Some true));
                         Callback sid (RPrivateMessage message false false) ])).
  { subst r. simpl. rewrite Hd. unfold messagePrivate, userOf.
    rewrite Hid, Ht, Hs, Hr. simpl.
    rewrite Hsrv, String.eqb_refl, Hb, Hoff. reflexivity. }
  rewrite Hstep. simpl. split; [reflexivity|]. split.
  { unfold pushMessage. apply lookup_insert_eq. }
  intros sid' e' [d' Hd']. rewrite Hd'. unfold userReconnect. simpl. rewrite Hr. simpl.
  unfold socketUserId, messagesGet, logOf, socketUserId. simpl.
  rewrite lookup_insert_eq. simpl. rewrite Htr, truthy_conversationKey.
  split; [reflexivity|].
  rewrite (conversationKey_comm recipientId senderId). fold key.
  unfold pushMessage. now rewrite lookup_insert_eq.
Qed.

Lemma private_message_to_offline_recipient_witness :
  let r := step (mkEnv 11 "m4") (On "s1" (MessagePrivate "u2" " are you there? " None None None))
                bobAway in
  let message := Message.mk "m4" Message.KPrivate "u1" "u2" "are you there?" None 11
                   false false None None None None None in
  r.2 = [ Emit "s1" "message:received" (PMessage message "alice" None (Some true) (Some true));
          Callback "s1" (RPrivateMessage message false false) ]
  /\ messages r.1 !! "u1_u2" = Some [demoM1; message]
  /\ let back := (step (mkEnv 12 "") (On "s3" (UserReconnect "u2")) r.1).1 in
     socketUserId "s3" back = Some "u2"
     /\ messagesGet "s3" "u1" true None back = [demoM1; message].
Proof.
  intros r message.
  pose proof (private_message_to_offline_recipient "s1" (mkEnv 11 "m4") bobAway
                "u1" "u2" " are you there? " None None None
                (User.mk "u1" "alice" "s1" "server1" ["g1"] true 2)
                (User.mk "u2" "bob" "" "server1" ["g1"] false 9)
                eq_refl eq_refl eq_refl eq_refl eq_refl eq_refl eq_refl eq_refl)
    as (Hout & Hlog & Hback).
  split; [exact Hout|]. split; [exact Hlog|].
  apply (Hback "s3" (mkEnv 12 "")). now eexists.
Defined.

(** ** C1: names of online users *)

Section UserFields.
Context {B : Type} (field : User.t -> B).

Lemma map_mutateFirst (p : User.t -> bool) (f : User.t -> User.t) (us : list User.t) :
  (forall u, field (f u) = field u) ->
  map field (mutateFirst p f us) = map field us.
Proof.
  intros Hf. induction us as [|u us IH]; simpl; [reflexivity|].
  destruct (p u); simpl; [now rewrite Hf | now rewrite IH].
Qed.

Lemma map_scrub (groupId : string) (members : list string) (us : list User.t) :
  (forall gs u, field (User.setGroups gs u) = field u) ->
  map field (fold_left (fun us memberId =>
               mutateFirst (hasId memberId)
                 (fun u => User.setGroups (without groupId (User.groups u)) u) us)
               members us) = map field us.
Proof.
  intros Hf. revert us.
  induction members as [|m members IH]; intros us; simpl; [reflexivity|].
  rewrite IH. apply map_mutateFirst. intros u. apply Hf.
Qed.

Lemma in_map_usersSet (user : User.t) (us : list User.t) (x : B) :
  In x (map field (usersSet user us)) -> x = field user \/ In x (map field us).
Proof.
  induction us as [|u us IH]; simpl.
  - intuition.
  - destruct (String.eqb (User.id u) (User.id user)); simpl; intuition.
Qed.

Lemma NoDup_usersSet (user : User.t) (us : list User.t) :
  NoDup (map field us) -> ~ In (field user) (map field us) ->
  NoDup (map field (usersSet user us)).
Proof.
  induction us as [|u us IH]; simpl; intros Hnd Hnew.
  - apply NoDup_cons_2; [apply not_elem_of_nil | constructor].
  - apply NoDup_cons in Hnd as [Hu Hnd].
    destruct (String.eqb (User.id u) (User.id user)); simpl.
    + apply NoDup_cons_2; [|assumption].
      rewrite list_elem_of_In. tauto.
    + apply NoDup_cons_2; [|apply IH; tauto].
      rewrite list_elem_of_In in *.
      intros Hin. apply in_map_usersSet in Hin as [Heq|Hin]; [|tauto].
      apply Hnew. now left.
Qed.
End UserFields.

Lemma addGroup_username (groupId : string) (u : User.t) :
  User.username (addGroup groupId u) = User.username u.
Proof. unfold addGroup. now destruct (includes _ _). Qed.

Lemma addGroup_serverId (groupId : string) (u : User.t) :
  User.serverId (addGroup groupId u) = User.serverId u.
Proof. unfold addGroup. now destruct (includes _ _). Qed.

Ltac fields_kept :=
  rewrite ?map_scrub, ?map_mutateFirst
    by (intros; first [reflexivity | apply addGroup_username | apply addGroup_serverId]).

Lemma step_namesDistinct (e : Env) (ev : Event) (s : Server) :
  trimmedJoin ev -> namesDistinct s -> namesDistinct (step e ev s).1.
Proof.
  intros Hev [Hsrv Hnd]. unfold namesDistinct.
  each_branch ev; fields_kept; try (split; assumption).
  (* [user:join] makes a new user: nobody has the name *)
  split.
  - intros x Hx. apply in_map_usersSet in Hx as [->|Hx]; [reflexivity | now apply Hsrv].
  - apply NoDup_usersSet; [assumption|]. simpl. rewrite Hev.
    intros Hin. apply in_map_iff in Hin as (u & Hname & Hu).
    match goal with H : find _ _ = None |- _ => pose proof (find_none _ _ H _ Hu) as Hno end.
    unfold sameName in Hno. rewrite Hname, String.eqb_refl in Hno. simpl in Hno.
    apply String.eqb_neq in Hno. apply Hno, Hsrv. now apply in_map.
Qed.

Lemma reachableTrimmed_namesDistinct (serverId : string) (s : Server) :
  reachableTrimmed serverId s -> namesDistinct s.
Proof.
  induction 1 as [createdAt|s e ev Hs IH Hev].
  - split; [intros x [] | constructor].
  - now apply step_namesDistinct.
Qed.

Lemma NoDup_map_eq {A B} (f : A -> B) (l : list A) (a b : A) :
  NoDup (map f l) -> In a l -> In b l -> f a = f b -> a = b.
Proof.
  induction l as [|x l IH]; simpl; [intros _ []|].
  intros Hnd Ha Hb Hab. apply NoDup_cons in Hnd as [Hx Hnd].
  rewrite list_elem_of_In in Hx.
  destruct Ha as [->|Ha], Hb as [->|Hb]; auto.
  - exfalso. apply Hx. rewrite Hab. now apply in_map.
  - exfalso. apply Hx. rewrite <- Hab. now apply in_map.
Qed.

(** Without white space around the names sent, the invariant of the spec
    holds, and more: no two users of the table, online or not, have one
    name. *)
Lemma names_unique_when_trimmed (serverId : string) (s : Server) (u1 u2 : User.t) :
  reachableTrimmed serverId s ->
  In u1 (users s) -> In u2 (users s) ->
  User.username u1 = User.username u2 -> u1 = u2.
Proof.
  intros Hs. destruct (reachableTrimmed_namesDistinct _ _ Hs) as [_ Hnd].
  now apply NoDup_map_eq.
Qed.

(** And [user:join] refuses the name of a user who is online. *)
Lemma userJoin_taken_when_trimmed (serverId : string) (s : Server)
    (sid : string) (e : Env) (username : string) (u : User.t) :
  reachableTrimmed serverId s ->
  In u (users s) -> User.username u = username -> User.isOnline u = true ->
  userJoin sid e username s = (s, [Callback sid (RError "Username is required")])
  \/ userJoin sid e username s = (s, [Callback sid (RError "Username already taken")]).
Proof.
  intros Hs Hu Hname Hon.
  destruct (reachableTrimmed_namesDistinct _ _ Hs) as [Hsrv Hnd].
  unfold userJoin. destruct (_ || _); [now left | right].
  destruct (find (sameName s username) (users s)) as [u'|] eqn:Hf.
  - apply find_some in Hf as [Hu' Hsame]. unfold sameName in Hsame.
    apply andb_prop in Hsame as [Hn _]. apply String.eqb_eq in Hn.
    assert (u' = u) as -> by (apply (NoDup_map_eq User.username (users s)); congruence).
    now rewrite Hon.
  - pose proof (find_none _ _ Hf _ Hu) as Hno. unfold sameName in Hno.
    rewrite Hname, String.eqb_refl in Hno. simpl in Hno. apply String.eqb_neq in Hno.
    exfalso. apply Hno, Hsrv. now apply in_map.
Qed.

(** C1 fails on the code.  [user:join] looks for the name as it was sent
    and stores it trimmed: with Alice online, a join as [" alice"] finds
    nobody of that name, succeeds, and makes a second online user named
    ["alice"].  From there the first Alice leaves, and a join as ["alice"]
    itself is accepted although an online user has that name, because
    [find] stops at the first, offline, Alice. *)
Theorem join_untrimmed_name_duplicates_online_name :
  let alice := User.mk "u1" "alice" "s1" "server1" [] true 2 in
  let alice2 := User.mk "u2" "alice" "s2" "server1" [] true 4 in
  let r := step (mkEnv 4 "u2") (On "s2" (UserJoin " alice")) aliceOnline in
  let s' := run [ (mkEnv 5 "", Disconnect "s1"); (mkEnv 6 "", Connection "s3") ] r.1 in
  let r' := step (mkEnv 7 "u3") (On "s3" (UserJoin "alice")) s' in
  reachable "server1" r.1 /\ reachable "server1" r'.1
  /\ users aliceOnline = [alice]
  /\ (exists groups, last r.2 = Some (Callback "s2" (RJoined alice2 [alice] groups)))
  /\ users r.1 = [alice; alice2]
  /\ users s' = [User.setPresence false "" 5 alice; alice2]
  /\ (exists groups,
        last r'.2 = Some (Callback "s3" (RJoined (User.setPresence true "s3" 7 alice)
                                           [alice2] groups)))
  /\ users r'.1 = [User.setPresence true "s3" 7 alice; alice2].
Proof.
  intros alice alice2 r s' r'.
  assert (H0 : reachable "server1" aliceOnline) by (apply reachable_run; constructor).
  assert (H1 : reachable "server1" r.1) by now apply reachable_step.
  assert (H2 : reachable "server1" r'.1) by now apply reachable_step, reachable_run.
  repeat split; try assumption; try reflexivity.
  - eexists. vm_compute. reflexivity.
  - eexists. vm_compute. reflexivity.
Qed.

(** ** C2: two [typing:start] in a row *)

(** The first timer is not cancelled by the second [typing:start]: once it
    is due it finds the entry of the same conversation, which the second
    start has just renewed, deletes it and announces that the user stopped. *)
Lemma typing_restart_first_timer (sid : string) (s : Server) (userId chatId : string)
    (isPrivate : bool) (e1 e2 e3 : Env) :
  socketUserId sid s = Some userId -> Js.truthy userId = true ->
  timers s = [] ->
  now e1 + typingWindow <= now e3 ->
  let s2 := (typingStart sid e2 chatId isPrivate
               (typingStart sid e1 chatId isPrivate s).1).1 in
  let r := step e3 TimerDue s2 in
  typingStatus s2 !! userId = Some (Typing.mk chatId isPrivate (now e2))
  /\ typingStatus r.1 !! userId = None
  /\ r.2 = typingNotice s userId chatId isPrivate false
  /\ timers r.1 = [Timer.mk (now e2 + typingWindow) userId chatId isPrivate].
Proof.
  intros Hid Ht Htm Hdue s2 r. subst r s2.
  unfold typingStart, socketUserId in *. simpl. rewrite Hid, Ht. simpl.
  rewrite Hid, Ht. simpl. rewrite Htm. simpl.
  destruct (Z.leb_spec (now e1 + typingWindow) (now e3)) as [_|]; [|lia].
  unfold typingTimeout. simpl. rewrite !lookup_insert_eq. simpl.
  rewrite String.eqb_refl. simpl.
  repeat split. apply lookup_delete_eq.
Qed.

(** What the test in the callback does catch: a start for another
    conversation.  The first timer then leaves the renewed entry alone. *)
Lemma typing_switch_first_timer (sid : string) (s : Server)
    (userId chatId chatId' : string) (isPrivate isPrivate' : bool) (e1 e2 e3 : Env) :
  socketUserId sid s = Some userId -> Js.truthy userId = true ->
  timers s = [] ->
  now e1 + typingWindow <= now e3 ->
  chatId' <> chatId ->
  let s2 := (typingStart sid e2 chatId' isPrivate'
               (typingStart sid e1 chatId isPrivate s).1).1 in
  let r := step e3 TimerDue s2 in
  typingStatus r.1 !! userId = Some (Typing.mk chatId' isPrivate' (now e2))
  /\ r.2 = [].
Proof.
  intros Hid Ht Htm Hdue Hne s2 r. subst r s2.
  unfold typingStart, socketUserId in *. simpl. rewrite Hid, Ht. simpl.
  rewrite Hid, Ht. simpl. rewrite Htm. simpl.
  destruct (Z.leb_spec (now e1 + typingWindow) (now e3)) as [_|]; [|lia].
  unfold typingTimeout. simpl. rewrite !lookup_insert_eq. simpl.
  apply String.eqb_neq in Hne. rewrite Hne. simpl.
  split; [apply lookup_insert_eq | reflexivity].
Qed.

(** C2 fails on the code.  After the two starts both timers are pending;
    at 4000, two time units before the second window ends, the first one
    runs: Bob is told that Alice stopped typing and her entry is gone.  The
    second timer, due at 6000, then finds no entry and does nothing. *)
Theorem typing_restart_stopped_by_first_timer :
  let r := step (mkEnv 4000 "") TimerDue typingTwice in
  let r' := step (mkEnv 6000 "") TimerDue r.1 in
  typingStatus typingTwice !! "u1" = Some (Typing.mk "u2" true 3000)
  /\ timers typingTwice = [Timer.mk 4000 "u1" "u2" true; Timer.mk 6000 "u1" "u2" true]
  /\ 4000 < 3000 + typingWindow
  /\ r.2 = [Emit "s2" "user:typing" (PTyping "u1" false "u2")]
  /\ typingStatus r.1 !! "u1" = None
  /\ r'.2 = [] /\ timers r'.1 = [].
Proof. repeat split. Qed.

(** * Further properties of the handlers *)

(** ** A refusal changes nothing *)

Lemma emitToUser_emits (s : Server) (userId event : string) (p : Payload) (o : Output) :
  In o (emitToUser s userId event p) -> isCallback o = false.
Proof.
  unfold emitToUser. intros Hin. repeat case_match; simpl in Hin; try contradiction.
  destruct Hin as [<-|[]]. reflexivity.
Qed.

Lemma emitToOthers_emits (s : Server) (userId : string) (members : list string)
    (event : string) (p : Payload) (o : Output) :
  In o (emitToOthers s userId members event p) -> isCallback o = false.
Proof.
  unfold emitToOthers. intros Hin. apply in_flat_map in Hin as (m & _ & Hin).
  destruct (negb _); [now apply emitToUser_emits in Hin | contradiction].
Qed.

Lemma notifyMembers_emits (s : Server) (skip : option string) (members : list string)
    (event : string) (p msg : Payload) (o : Output) :
  In o (notifyMembers s skip members event p msg) -> isCallback o = false.
Proof.
  unfold notifyMembers. intros Hin. apply in_flat_map in Hin as (m & _ & Hin).
  repeat case_match; simpl in Hin;
    repeat (destruct Hin as [<-|Hin]; [reflexivity|]); contradiction.
Qed.

Lemma typingNotice_emits (s : Server) (userId chatId : string)
    (isPrivate isTyping : bool) (o : Output) :
  In o (typingNotice s userId chatId isPrivate isTyping) -> isCallback o = false.
Proof.
  unfold typingNotice. intros Hin. repeat case_match; try contradiction.
  - now apply emitToUser_emits in Hin.
  - now apply emitToOthers_emits in Hin.
Qed.

(** X1.  Whatever the event, if a callback is answered with an error, the
    handler has returned before writing anything: the state is the one it
    started from. *)
Theorem refusal_changes_nothing (e : Env) (ev : Event) (s : Server) (sk error : string) :
  In (Callback sk (RError error)) (step e ev s).2 -> (step e ev s).1 = s.
Proof.
  intros Hin. each_branch ev; try reflexivity; try contradiction.
  all: repeat (apply in_app_or in Hin as [Hin|Hin]).
  all: try (simpl in Hin; intuition discriminate).
  all: try (apply notifyMembers_emits in Hin; discriminate Hin).
  all: try (apply emitToUser_emits in Hin; discriminate Hin).
  all: try (apply emitToOthers_emits in Hin; discriminate Hin).
  all: try (apply typingNotice_emits in Hin; discriminate Hin).
  all: apply in_flat_map in Hin as (m & _ & Hin); repeat case_match;
    simpl in Hin; try contradiction;
    try (apply emitToUser_emits in Hin; discriminate Hin);
    repeat (destruct Hin as [Hin|Hin]; [discriminate Hin|]); contradiction.
Qed.

Lemma refusal_changes_nothing_witness :
  In (Callback "s2" (RError "Already in group"))
     (step (mkEnv 9 "m4") (On "s2" (GroupJoin "g1")) demo).2
  /\ (step (mkEnv 9 "m4") (On "s2" (GroupJoin "g1")) demo).1 = demo.
Proof.
  assert (H : In (Callback "s2" (RError "Already in group"))
                (step (mkEnv 9 "m4") (On "s2" (GroupJoin "g1")) demo).2)
    by (vm_compute; left; reflexivity).
  split; [exact H | exact (refusal_changes_nothing _ _ _ _ _ H)].
Defined.

(** ** Users stay *)

(** X2.  No handler deletes from [users]: an id that is in the table is in
    it after any further events. *)
Theorem users_are_never_removed (evs : list (Env * Event)) (s : Server) (id : string) :
  In id (userIds (users s)) -> In id (userIds (users (run evs s))).
Proof.
  revert s. induction evs as [|[e ev] evs IH]; intros s Hin; simpl; [assumption|].
  apply IH. now apply step_userIds.
Qed.

Lemma users_are_never_removed_witness :
  In "u2" (userIds (users demo))
  /\ In "u2" (userIds (users (run [ (mkEnv 9 "", Disconnect "s2");
                                    (mkEnv 10 "u9", On "s1" (UserJoin "carol")) ] demo))).
Proof.
  assert (H : In "u2" (userIds (users demo))) by (vm_compute; right; left; reflexivity).
  split; [exact H | exact (users_are_never_removed _ _ _ H)].
Defined.

(** ** [messages:get] and its limit *)

(** X3.  [messages:get] with a limit: no limit or the limit 0 gives the
    whole log; a limit of 1 or more gives the last so many messages; a
    negative limit [-k], which [slice] reads as a start index, gives
    all but the first [k]. *)
Theorem messagesGet_limit (sid chatId : string) (isPrivate : bool) (n : Z) (s : Server) :
  let log := messagesGet sid chatId isPrivate None s in
  messagesGet sid chatId isPrivate (Some n) s =
    if n =? 0 then log
    else if 0 <? n then drop (length log - Z.to_nat n) log
    else drop (Z.to_nat (- n)) log.
Proof.
  simpl. unfold messagesGet.
  destruct (Z.eqb_spec n 0) as [|Hn]; [reflexivity|].
  destruct (Z.ltb_spec 0 n) as [Hpos|Hneg].
  - apply slice_last. lia.
  - unfold Js.slice. destruct (Z.ltb_spec (- n) 0) as [|_]; [lia|].
    set (log := logOf sid chatId isPrivate s).
    destruct (Z.le_gt_cases (- n) (Z.of_nat (length log))) as [Hle|Hgt].
    + f_equal. lia.
    + rewrite !drop_ge by lia. reflexivity.
Qed.

(** ** [chat:delete] *)

(** X4.  [chat:delete] on a private chat asks nothing but that the socket is
    identified, and deletes the one log of the pair: the other party, asking
    for the conversation afterwards, gets nothing either.  The logs under
    other keys stay. *)
Theorem chatDelete_private_clears_both_views (sid sb : string) (s : Server)
    (userId chatId : string) :
  socketUserId sid s = Some userId -> Js.truthy userId = true ->
  socketUserId sb s = Some chatId ->
  let r := chatDelete sid chatId true s in
  r.2 = [Emit sid "chat:deleted" (PChatDeleted chatId true); Callback sid RSuccess]
  /\ messagesGet sid chatId true None r.1 = []
  /\ messagesGet sb userId true None r.1 = []
  /\ forall key, key <> conversationKey userId chatId ->
       messages r.1 !! key = messages s !! key.
Proof.
  intros Hid Ht Hb. unfold chatDelete. rewrite Hid, Ht. simpl.
  unfold messagesGet, logOf, socketUserId in *. simpl. rewrite Hid, Hb, Ht.
  rewrite !truthy_conversationKey, (conversationKey_comm chatId userId).
  rewrite !lookup_delete_eq. simpl.
  repeat split; [now destruct (Js.truthy chatId)|].
  intros key Hne. now apply lookup_delete_ne.
Qed.

Lemma chatDelete_private_clears_both_views_witness :
  let r := chatDelete "s2" "u1" true demo in
  messagesGet "s1" "u2" true None demo = [demoM1]
  /\ r.2 = [Emit "s2" "chat:deleted" (PChatDeleted "u1" true); Callback "s2" RSuccess]
  /\ messagesGet "s2" "u1" true None r.1 = []
  /\ messagesGet "s1" "u2" true None r.1 = []
  /\ forall key, key <> conversationKey "u2" "u1" ->
       messages r.1 !! key = messages demo !! key.
Proof.
  intros r. split; [reflexivity|].
  exact (chatDelete_private_clears_both_views "s2" "s1" demo "u2" "u1"
           eq_refl eq_refl eq_refl).
Defined.

(** X5.  [chat:delete] on a group chat by the creator deletes the log of
    that group and nothing else: the state afterwards is the state before
    without that one log.  The logs under other keys, the group with its
    members, the users, the bindings, the typing entries, the sockets and
    the timers are as they were. *)
Theorem chatDelete_group_keeps_group (sid : string) (s : Server)
    (userId chatId : string) (group : Group.t) :
  socketUserId sid s = Some userId -> Js.truthy userId = true ->
  groups s !! chatId = Some group -> Group.creator group = userId ->
  let r := chatDelete sid chatId false s in
  r = (setMessages (delete chatId (messages s)) s,
       [Emit sid "chat:deleted" (PChatDeleted chatId false); Callback sid RSuccess])
  /\ messages r.1 !! chatId = None
  /\ (forall key, key <> chatId -> messages r.1 !! key = messages s !! key)
  /\ groups r.1 = groups s /\ users r.1 = users s
  /\ userSocketMap r.1 = userSocketMap s /\ typingStatus r.1 = typingStatus s
  /\ sockets r.1 = sockets s /\ timers r.1 = timers s.
Proof.
  intros Hid Ht Hg Hc. unfold chatDelete. rewrite Hid, Ht, Hg, Hc, String.eqb_refl. simpl.
  repeat split; [apply lookup_delete_eq|]. intros key Hne. now apply lookup_delete_ne.
Qed.

Lemma chatDelete_group_keeps_group_witness :
  let r := chatDelete "s1" "g1" false demo in
  messages demo !! "g1" = Some [demoM2; demoM3]
  /\ r = (setMessages (delete "g1" (messages demo)) demo,
          [Emit "s1" "chat:deleted" (PChatDeleted "g1" false); Callback "s1" RSuccess])
  /\ messages r.1 !! "g1" = None
  /\ (forall key, key <> "g1" -> messages r.1 !! key = messages demo !! key)
  /\ groups r.1 = groups demo /\ users r.1 = users demo
  /\ userSocketMap r.1 = userSocketMap demo /\ typingStatus r.1 = typingStatus demo
  /\ sockets r.1 = sockets demo /\ timers r.1 = timers demo.
Proof.
  intros r. split; [reflexivity|].
  exact (chatDelete_group_keeps_group "s1" demo "u1" "g1"
           (Group.mk "g1" "G" None "u1" ["u1"; "u2"] 6) eq_refl eq_refl eq_refl eq_refl).
Defined.

(** ** [typing:stop] and the sweep *)

(** No event but a [typing:start] of the user's own makes a typing entry
    for the user. *)
Lemma step_no_typing_entry (e : Env) (ev : Event) (s : Server) (userId : string) :
  noStartBy userId s ev ->
  typingStatus s !! userId = None ->
  typingStatus (step e ev s).1 !! userId = None.
Proof.
  intros Hq Hnone. each_branch ev; try assumption.
  all: try (apply lookup_delete_None; auto; fail).
  - rewrite lookup_insert_ne; [assumption | congruence].
  - apply map_lookup_filter_None. auto.
Qed.

Lemma run_no_typing_entry (evs : list (Env * Event)) (s : Server) (userId : string) :
  quietFor userId evs s ->
  typingStatus s !! userId = None ->
  typingStatus (run evs s) !! userId = None.
Proof.
  revert s. induction evs as [|[e ev] evs IH]; intros s Hq Hnone; simpl; [assumption|].
  destruct Hq as [Hev Hq]. apply IH; [exact Hq | now apply step_no_typing_entry].
Qed.

(** X6.  After [typing:stop], and for as long as no socket identified as
    the user sends [typing:start], the user has no typing entry, whatever
    else happens; and a timer of that user that is next to run, left from
    an earlier start, sends nothing and leaves no entry. *)
Theorem typing_stop_silences_timer (sid : string) (s : Server) (userId chatId : string)
    (isPrivate : bool) (evs : list (Env * Event)) (e : Env) :
  socketUserId sid s = Some userId -> Js.truthy userId = true ->
  let stopped := (typingStop sid chatId isPrivate s).1 in
  quietFor userId evs stopped ->
  let later := run evs stopped in
  typingStatus stopped !! userId = None
  /\ typingStatus later !! userId = None
  /\ forall t rest, timers later = t :: rest -> Timer.userId t = userId ->
       (step e TimerDue later).2 = []
       /\ typingStatus (step e TimerDue later).1 !! userId = None.
Proof.
  intros Hid Ht stopped Hq later.
  assert (Hstop : typingStatus stopped !! userId = None).
  { subst stopped. unfold typingStop. rewrite Hid, Ht. simpl. apply lookup_delete_eq. }
  assert (Hlater : typingStatus later !! userId = None)
    by now apply run_no_typing_entry.
  split; [assumption|]. split; [assumption|].
  intros t rest Htm Hu. simpl. rewrite Htm.
  destruct (Timer.due t <=? now e); [|auto].
  unfold typingTimeout. simpl. rewrite Hu, Hlater. auto.
Qed.

Lemma typing_stop_silences_timer_witness :
  let started := (typingStart "s1" (mkEnv 1000 "") "u2" true demo).1 in
  let stopped := (typingStop "s1" "u2" true started).1 in
  let later := run [ (mkEnv 2000 "m4", On "s2" (MessagePrivate "u1" "hi" None None None));
                     (mkEnv 2500 "", On "s2" (TypingStart "u1" true)) ] stopped in
  timers later = [Timer.mk 4000 "u1" "u2" true; Timer.mk 5500 "u2" "u1" true]
  /\ typingStatus stopped !! "u1" = None
  /\ typingStatus later !! "u1" = None
  /\ (step (mkEnv 4000 "") TimerDue later).2 = []
  /\ typingStatus (step (mkEnv 4000 "") TimerDue later).1 !! "u1" = None.
Proof.
  intros started stopped later.
  assert (Hq : quietFor "u1"
                 [ (mkEnv 2000 "m4", On "s2" (MessagePrivate "u1" "hi" None None None));
                   (mkEnv 2500 "", On "s2" (TypingStart "u1" true)) ] stopped).
  { vm_compute. repeat split. intros H; discriminate H. }
  destruct (typing_stop_silences_timer "s1" started "u1" "u2" true _ (mkEnv 4000 "")
              eq_refl eq_refl Hq) as (H1 & H2 & H3).
  split; [reflexivity|]. split; [exact H1|]. split; [exact H2|].
  exact (H3 (Timer.mk 4000 "u1" "u2" true) [Timer.mk 5500 "u2" "u1" true] eq_refl eq_refl).
Defined.

(** X7.  The sweep keeps exactly the typing entries that are at most 10000
    ms old, as they are, and sends nothing: an entry it purges goes without
    a [user:typing] notice. *)
Theorem sweep_keeps_recent_silently (e : Env) (s : Server) (userId : string) (st : Typing.t) :
  (typingStatus (step e SweepDue s).1 !! userId = Some st
   <-> typingStatus s !! userId = Some st /\ now e - Typing.timestamp st <= 10000)
  /\ (step e SweepDue s).2 = [].
Proof.
  split; [|reflexivity]. simpl. unfold sweep. simpl.
  rewrite map_lookup_filter_Some. simpl. split; intros [H1 H2]; split; auto; lia.
Qed.

(** ** Leaving and coming back *)

(** X8.  A user who disconnects and then sends [user:reconnect] with the
    same id, on any socket, is the same record again: id, name, server and
    groups are kept, the user is online and bound to the new socket. *)
Theorem disconnect_then_reconnect (sid sid' : string) (e e' : Env) (s : Server)
    (userId : string) (user : User.t) :
  socketUserId sid s = Some userId -> Js.truthy userId = true ->
  usersGet userId (users s) = Some user ->
  let away := (handleUserDisconnect sid e s).1 in
  let back := (userReconnect sid' e' userId away).1 in
  usersGet userId (users back)
  = Some (User.mk (User.id user) (User.username user) sid' (User.serverId user)
                  (User.groups user) true (now e'))
  /\ userSocketMap back !! userId = Some sid'
  /\ socketUserId sid' back = Some userId
  /\ userIds (users back) = userIds (users s).
Proof.
  intros Hid Ht Hu away back. subst back away.
  unfold handleUserDisconnect. rewrite Hid, Ht, Hu. simpl.
  unfold userReconnect. simpl.
  rewrite usersGet_mutateFirst by reflexivity. rewrite Hu. simpl.
  rewrite usersGet_mutateFirst by reflexivity.
  rewrite usersGet_mutateFirst by reflexivity. rewrite Hu. simpl.
  unfold socketUserId. simpl. rewrite !lookup_insert_eq. simpl.
  repeat split. now rewrite !userIds_mutateFirst by reflexivity.
Qed.

Lemma disconnect_then_reconnect_witness :
  let away := (handleUserDisconnect "s2" (mkEnv 9 "") demo).1 in
  let back := (userReconnect "s1" (mkEnv 10 "") "u2" away).1 in
  usersGet "u2" (users back) = Some (User.mk "u2" "bob" "s1" "server1" ["g1"] true 10)
  /\ userSocketMap back !! "u2" = Some "s1"
  /\ socketUserId "s1" back = Some "u2"
  /\ userIds (users back) = userIds (users demo).
Proof.
  exact (disconnect_then_reconnect "s2" "s1" (mkEnv 9 "") (mkEnv 10 "") demo "u2"
           (User.mk "u2" "bob" "s2" "server1" ["g1"] true 4) eq_refl eq_refl eq_refl).
Defined.

(** ** How the logs change *)

Lemma trim_not_blank (content : string) : blank content = false -> Js.trim content <> "".
Proof.
  unfold blank. intros H. apply orb_false_elim in H as [_ H].
  intros Heq. rewrite Heq in H. discriminate H.
Qed.

Lemma append_not_empty (a b : string) : b <> "" -> a +:+ b <> "".
Proof. destruct a; simpl; [auto | discriminate]. Qed.

Lemma Forall2_rewritten_map (f : Message.t -> Message.t) (log : list Message.t) :
  (forall m, rewritten m (f m)) -> Forall2 rewritten log (map f log).
Proof. intros Hf. induction log; simpl; constructor; auto. Qed.

Lemma Forall2_rewritten_insert (log : list Message.t) (i : nat) (m m' : Message.t) :
  log !! i = Some m -> rewritten m m' -> Forall2 rewritten log (<[i := m']> log).
Proof.
  revert i. induction log as [|x log IH]; intros [|i] Hi Hr; simpl in *; try discriminate.
  - injection Hi as ->. constructor; [assumption|].
    apply Forall2_same_length_lookup_2; [reflexivity|].
    intros j a b Ha Hb. rewrite Ha in Hb. injection Hb as <-. constructor.
  - constructor; [constructor | now apply IH].
Qed.

(** What [deleteIn] hands back when it deletes. *)
Lemma deleteIn_Deleted (log log' : list Message.t) (messageId userId : string)
    (senderOnly : option string) (mark : Message.t -> Message.t) :
  deleteIn log messageId userId senderOnly mark = Deleted log' ->
  exists i m, log !! i = Some m /\ log' = <[i := mark m]> log.
Proof.
  unfold deleteIn. intros H. repeat case_match; try discriminate; injection H as <-; eauto.
Qed.

(** One event changes the log under a key in one of four ways: not at all,
    by deleting it, by pushing one new message, by rewriting entries in
    place. *)
Lemma step_logStep (e : Env) (ev : Event) (s : Server) (key : string) :
  logStep (messages s !! key) (messages (step e ev s).1 !! key).
Proof.
  each_branch ev; try apply logStep_same.
  all: unfold pushMessage;
    match goal with
    | |- logStep _ (delete ?k _ !! _) => destruct (decide (k = key)) as [Heq|Hne]
    | |- logStep _ (<[?k := _]> _ !! _) => destruct (decide (k = key)) as [Heq|Hne]
    end;
    [ subst key; rewrite ?lookup_delete_eq, ?lookup_insert_eq
    | rewrite ?lookup_delete_ne, ?lookup_insert_ne by assumption;
      apply logStep_same ];
    try apply logStep_deleted.
  all: try (apply logStep_pushed; repeat split; simpl;
            first [ now apply trim_not_blank
                  | apply append_not_empty; discriminate ]).
  all: try (eapply logStep_rewritten; [eassumption|];
            apply Forall2_rewritten_map; intros m;
            match goal with |- rewritten _ (if ?c then _ else _) => destruct c end;
            constructor).
  all: match goal with
       | H : _ = Deleted _ |- _ => apply deleteIn_Deleted in H as (i & m & Hi & ->)
       end;
       (eapply logStep_rewritten; [eassumption|]);
       eapply Forall2_rewritten_insert; [eassumption | constructor].
Qed.

Lemma rewritten_identity (m m' : Message.t) : rewritten m m' -> identity m' = identity m.
Proof. now destruct 1. Qed.

Lemma Forall2_rewritten_identity (log log' : list Message.t) :
  Forall2 rewritten log log' -> map identity log' = map identity log.
Proof.
  induction 1 as [|m m' log log' Hm _ IH]; simpl; [reflexivity|].
  now rewrite IH, (rewritten_identity _ _ Hm).
Qed.

(** X9.  A log only grows at its end.  Through any one event, either the
    whole log is deleted, or every message in it is still there, at its
    place, with the id, kind, sender, recipient and timestamp it had, and at
    most one message has been added after them. *)
Theorem log_entries_stay (e : Env) (ev : Event) (s : Server) (key : string)
    (old : list Message.t) :
  messages s !! key = Some old ->
  messages (step e ev s).1 !! key = None
  \/ exists new added,
       messages (step e ev s).1 !! key = Some new
       /\ map identity new = map identity old ++ map identity added
       /\ (length added <= 1)%nat.
Proof.
  intros Hold. pose proof (step_logStep e ev s key) as Hstep. rewrite Hold in Hstep.
  inversion Hstep as [Hsame| |m Hm Hpush|log log' Hlog Hrw Hnew]; auto; right.
  - exists old, []. rewrite app_nil_r. auto.
  - exists (old ++ [m]), [m]. simpl. rewrite map_app. auto.
  - injection Hlog as <-. exists log', []. rewrite app_nil_r; simpl.
    split; [reflexivity|]. split; [|lia]. now apply Forall2_rewritten_identity.
Qed.

Lemma log_entries_stay_witness :
  messages demo !! "u1_u2" = Some [demoM1]
  /\ (messages (step (mkEnv 9 "") (On "s1" (MessageDelete "m1" "u2" true true "u1")) demo).1
        !! "u1_u2" = None
      \/ exists new added,
           messages (step (mkEnv 9 "") (On "s1" (MessageDelete "m1" "u2" true true "u1"))
                          demo).1 !! "u1_u2" = Some new
           /\ map identity new = map identity [demoM1] ++ map identity added
           /\ (length added <= 1)%nat).
Proof.
  split; [reflexivity|].
  exact (log_entries_stay (mkEnv 9 "")
           (On "s1" (MessageDelete "m1" "u2" true true "u1")) demo "u1_u2" [demoM1] eq_refl).
Defined.

(** ** What every stored message satisfies *)

Section LogInvariant.
Context (Q : Message.t -> Prop).
Context (Q_new : forall m, newMessage m -> Q m).
Context (Q_rewritten : forall m m', rewritten m m' -> Q m -> Q m').

Lemma Forall2_rewritten_Forall (log log' : list Message.t) :
  Forall2 rewritten log log' -> Forall Q log -> Forall Q log'.
Proof.
  induction 1 as [|m m' l l' Hm _ IH]; intros HF; [constructor|].
  apply Forall_cons in HF as [Hq HF]. constructor; [now apply (Q_rewritten m) | now apply IH].
Qed.

Lemma logStep_Forall (old new : option (list Message.t)) :
  logStep old new ->
  (forall log, old = Some log -> Forall Q log) ->
  forall log, new = Some log -> Forall Q log.
Proof.
  intros Hstep Hold log Hnew. destruct Hstep as [| |m Hm|l l' Hl Hrw].
  - auto.
  - discriminate.
  - injection Hnew as <-. apply Forall_app. split.
    + destruct old as [l|]; simpl; [auto | constructor].
    + constructor; [auto | constructor].
  - injection Hnew as <-. apply (Forall2_rewritten_Forall l); auto.
Qed.

Lemma reachable_logs_Forall (serverId : string) (s : Server) :
  reachable serverId s ->
  forall key log, messages s !! key = Some log -> Forall Q log.
Proof.
  induction 1 as [createdAt|s e ev Hs IH]; intros key log Hlog.
  - discriminate Hlog.
  - eapply logStep_Forall; [apply (step_logStep e ev s key) | apply IH | exact Hlog].
Qed.
End LogInvariant.

(** X10.  In every reachable state, a stored message that carries a deletion
    marker ([deletedForMe] or [deletedForEveryone]) has the placeholder as
    content, no attachments, and names who deleted it. *)
Theorem marked_messages_are_blanked (serverId : string) (s : Server) (key : string)
    (log : list Message.t) (m : Message.t) :
  reachable serverId s -> messages s !! key = Some log -> In m log ->
  markedAsDeleted m ->
  Message.content m = Message.placeholder
  /\ Message.attachments m = Some []
  /\ is_Some (Message.deletedBy m).
Proof.
  intros Hs Hlog Hin.
  assert (HQ : Forall deletedProperly log).
  { apply (reachable_logs_Forall deletedProperly) with serverId s key; try assumption.
    - intros m0 (_ & _ & H1 & H2 & _) [H|H]; congruence.
    - intros m0 m' Hrw Hq. destruct Hrw; try assumption; intros _; simpl; eauto. }
  rewrite List.Forall_forall in HQ. now apply HQ.
Qed.

Lemma marked_messages_are_blanked_witness :
  let s := (step (mkEnv 9 "") (On "s2" (MessageDelete "m3" "g1" false false "u2")) demo).1 in
  let m := Message.deleteForMe "u2" demoM3 in
  Message.content m = Message.placeholder
  /\ Message.attachments m = Some []
  /\ is_Some (Message.deletedBy m).
Proof.
  intros s m.
  apply (marked_messages_are_blanked "server1" s "g1" [demoM2; m] m).
  - apply reachable_step. unfold demo. apply reachable_run. constructor.
  - reflexivity.
  - right; left; reflexivity.
  - left; reflexivity.
Defined.

(** X11.  In every reachable state, no stored message has empty content:
    [message:group] and [message:private] refuse blank text and store the
    rest trimmed, the system messages end in fixed words, and a deletion
    writes the placeholder. *)
Theorem stored_content_is_never_empty (serverId : string) (s : Server) (key : string)
    (log : list Message.t) (m : Message.t) :
  reachable serverId s -> messages s !! key = Some log -> In m log ->
  Message.content m <> "".
Proof.
  intros Hs Hlog Hin.
  assert (HQ : Forall (fun m => Message.content m <> "") log).
  { apply (reachable_logs_Forall (fun m => Message.content m <> "")) with serverId s key;
      try assumption.
    - now intros m0 [H _].
    - intros m0 m' Hrw Hq. destruct Hrw; try assumption; discriminate. }
  rewrite List.Forall_forall in HQ. now apply HQ.
Qed.

Lemma stored_content_is_never_empty_witness :
  Message.content demoM2 <> "".
Proof.
  apply (stored_content_is_never_empty "server1" demo "g1" [demoM2; demoM3] demoM2).
  - unfold demo. apply reachable_run. constructor.
  - reflexivity.
  - left; reflexivity.
Defined.

(** ** [message:read] *)

(** X12.  [message:read] from an identified socket changes nothing but
    [read] flags: the state afterwards is the state before with, at most,
    other logs; no log appears or disappears, every log keeps its length
    and order, and the logs under other keys than the one addressed are
    untouched.  A flag is set only on a message the reader received (in a
    private chat a message addressed to the reader, in a group a message
    somebody else sent), and it is set on every message of the addressed
    log that the reader received from that chat. *)
Theorem messageRead_marks_only_received (sid chatId : string) (isPrivate : bool)
    (s : Server) (userId : string) :
  socketUserId sid s = Some userId ->
  let r := messageRead sid chatId isPrivate s in
  let target := if isPrivate then conversationKey userId chatId else chatId in
  r.1 = setMessages (messages r.1) s
  /\ (forall key, option_Forall2 (Forall2 (readBy userId isPrivate))
                    (messages s !! key) (messages r.1 !! key))
  /\ (forall key, key <> target -> messages r.1 !! key = messages s !! key)
  /\ (Js.truthy userId = true ->
      forall log i m, messages s !! target = Some log -> log !! i = Some m ->
        receivedIn userId chatId isPrivate m ->
        (messages r.1 !! target) ≫= (fun log' => log' !! i) = Some (Message.setRead m)).
Proof.
  intros Hid. simpl.
  assert (Hrefl : forall o : option (list Message.t),
             option_Forall2 (Forall2 (readBy userId isPrivate)) o o).
  { intros [l|]; constructor.
    apply Forall_Forall2_diag, List.Forall_forall. intros m _. now left. }
  assert (Heta : s = setMessages (messages s) s) by now destruct s.
  unfold messageRead. rewrite Hid.
  destruct (Js.truthy userId) eqn:Ht; simpl;
    [|repeat split; intros; first [exact Heta | apply Hrefl | reflexivity | discriminate]].
  set (target := if isPrivate then conversationKey userId chatId else chatId).
  destruct (messages s !! target) as [log|] eqn:Hlog; simpl;
    [|repeat split; intros; first [exact Heta | apply Hrefl | reflexivity | discriminate]].
  split; [reflexivity|]. split; [|split].
  - intros key. destruct (decide (target = key)) as [<-|Hne].
    + rewrite lookup_insert_eq, Hlog. constructor.
      clear Hlog. induction log as [|m log IH]; simpl; constructor; [|exact IH].
      destruct isPrivate; simpl.
      * rewrite orb_false_r.
        destruct (String.eqb (Message.sender m) chatId); simpl; [|now left].
        destruct (String.eqb_spec (Message.recipient m) userId); [right | left]; auto.
      * destruct (String.eqb (Message.recipient m) chatId); simpl; [|now left].
        destruct (String.eqb_spec (Message.sender m) userId); simpl; [left | right]; auto.
    + rewrite lookup_insert_ne by assumption. apply Hrefl.
  - intros key Hne. apply lookup_insert_ne. congruence.
  - intros _ l i m [= <-] Hi Hrec. rewrite lookup_insert_eq. simpl.
    rewrite list_lookup_fmap, Hi. simpl. f_equal.
    unfold receivedIn in Hrec. destruct isPrivate; simpl; destruct Hrec as [H1 H2].
    + apply String.eqb_eq in H1, H2. now rewrite H1, H2.
    + apply String.eqb_eq in H1. apply String.eqb_neq in H2. now rewrite H1, H2.
Qed.

Lemma messageRead_marks_only_received_witness :
  let r := messageRead "s2" "g1" false demo in
  r.1 = setMessages (messages r.1) demo
  /\ (forall key, option_Forall2 (Forall2 (readBy "u2" false))
                    (messages demo !! key) (messages r.1 !! key))
  /\ (forall key, key <> "g1" -> messages r.1 !! key = messages demo !! key)
  /\ messages r.1 !! "g1" = Some [Message.setRead demoM2; Message.setRead demoM3].
Proof.
  destruct (messageRead_marks_only_received "s2" "g1" false demo "u2" eq_refl)
    as (H1 & H2 & H3 & _).
  split; [exact H1|]. split; [exact H2|]. split; [exact H3 | reflexivity].
Defined.

(** X13.  [message:read] twice is [message:read] once: the second run finds
    the same messages and leaves the state as the first left it. *)
Theorem messageRead_idempotent (sid chatId : string) (isPrivate : bool) (s : Server) :
  (messageRead sid chatId isPrivate (messageRead sid chatId isPrivate s).1).1
  = (messageRead sid chatId isPrivate s).1.
Proof.
  unfold messageRead.
  destruct (socketUserId sid s) as [userId|] eqn:Hid; [|simpl; now rewrite Hid].
  destruct (Js.truthy userId) eqn:Ht; [|simpl; now rewrite Hid, Ht].
  destruct (messages s !! _) as [log|] eqn:Hlog; simpl; [|now rewrite Hid, Ht, Hlog].
  unfold socketUserId in *. simpl. rewrite Hid, Ht, lookup_insert_eq. simpl.
  unfold setMessages. simpl. f_equal.
  rewrite insert_insert_eq. f_equal.
  rewrite map_map. apply map_ext. intros m.
  match goal with |- context [if ?c then Message.setRead m else m] => destruct c eqn:Hc end;
    simpl; rewrite Hc; reflexivity.
Qed.

(** ** Posting to a group and reading back *)

Lemma messageGroup_accepted (sid : string) (e : Env) (s : Server)
    (userId groupId content : string) (user : User.t) (group : Group.t) :
  socketUserId sid s = Some userId -> Js.truthy userId = true ->
  usersGet userId (users s) = Some user ->
  groups s !! groupId = Some group ->
  includes userId (Group.members group) = true ->
  blank content = false ->
  (step e (On sid (MessageGroup groupId content None None None)) s).1
  = setMessages (pushMessage groupId (groupPost e userId groupId content) (messages s)) s.
Proof.
  intros Hid Ht Hu Hg Hin Hb. simpl.
  destruct (socketUserId_connected _ _ _ Hid) as [d ->].
  unfold messageGroup, userOf. rewrite Hid, Ht, Hu, Hg. simpl.
  now rewrite Hin, Hb.
Qed.

(** X14.  What a member posts to a group is read back as posted: after any
    number of accepted [message:group] from one member, [messages:get]
    without limit gives, to any socket, the log as it was followed by the
    posts, trimmed, in the order they were sent. *)
Theorem group_posts_read_back_in_order (sid sid' : string) (s : Server)
    (userId groupId : string) (user : User.t) (group : Group.t)
    (posts : list (Env * string)) :
  socketUserId sid s = Some userId -> Js.truthy userId = true ->
  usersGet userId (users s) = Some user ->
  groups s !! groupId = Some group ->
  includes userId (Group.members group) = true ->
  Forall (fun p => blank p.2 = false) posts ->
  messagesGet sid' groupId false None (run (postAll sid groupId posts) s)
  = messagesGet sid' groupId false None s
    ++ map (fun p => groupPost p.1 userId groupId p.2) posts.
Proof.
  intros Hid Ht Hu Hg Hin Hposts. revert s Hid Hu Hg.
  induction Hposts as [|[e content] posts Hb _ IH]; intros s Hid Hu Hg.
  - simpl. now rewrite app_nil_r.
  - change (run (postAll sid groupId ((e, content) :: posts)) s)
      with (run (postAll sid groupId posts)
              (step e (On sid (MessageGroup groupId content None None None)) s).1).
    simpl in Hb.
    rewrite (messageGroup_accepted sid e s userId groupId content user group
               Hid Ht Hu Hg Hin Hb).
    rewrite IH by assumption.
    unfold messagesGet, logOf, pushMessage. simpl. rewrite lookup_insert_eq. simpl.
    now rewrite <- app_assoc.
Qed.

Lemma group_posts_read_back_in_order_witness :
  messagesGet "s2" "g1" false None
    (run (postAll "s1" "g1" [(mkEnv 9 "m4", " one "); (mkEnv 10 "m5", "two")]) demo)
  = [demoM2; demoM3; groupPost (mkEnv 9 "m4") "u1" "g1" " one ";
     groupPost (mkEnv 10 "m5") "u1" "g1" "two"].
Proof.
  apply (group_posts_read_back_in_order "s1" "s2" demo "u1" "g1"
           (User.mk "u1" "alice" "s1" "server1" ["g1"] true 2)
           (Group.mk "g1" "G" None "u1" ["u1"; "u2"] 6)
           [(mkEnv 9 "m4", " one "); (mkEnv 10 "m5", "two")]);
    try reflexivity.
  repeat constructor.
Defined.

(** ** The user table as a map *)

Lemma NoDup_userIds_usersSet (user : User.t) (us : list User.t) :
  NoDup (userIds us) -> NoDup (userIds (usersSet user us)).
Proof.
  unfold userIds. induction us as [|u us IH]; simpl; intros Hnd.
  - apply NoDup_cons_2; [apply not_elem_of_nil | constructor].
  - apply NoDup_cons in Hnd as [Hu Hnd].
    destruct (String.eqb_spec (User.id u) (User.id user)) as [Heq|Hne]; simpl.
    + rewrite <- Heq. now apply NoDup_cons_2.
    + apply NoDup_cons_2; [|now apply IH].
      rewrite list_elem_of_In in *. intros Hin.
      apply (in_map_usersSet User.id) in Hin as [Hin|Hin]; auto.
Qed.

Lemma step_NoDup_userIds (e : Env) (ev : Event) (s : Server) :
  NoDup (userIds (users s)) -> NoDup (userIds (users (step e ev s).1)).
Proof.
  intros Hnd. each_branch ev; ids_kept; try assumption.
  now apply NoDup_userIds_usersSet.
Qed.

Lemma reachable_NoDup_userIds (serverId : string) (s : Server) :
  reachable serverId s -> NoDup (userIds (users s)).
Proof.
  induction 1 as [createdAt|s e ev Hs IH]; [constructor | now apply step_NoDup_userIds].
Qed.

(** The entry that [find] returns is the one [mutateFirst] rewrites. *)
Lemma mutateFirst_split (p : User.t -> bool) (f : User.t -> User.t)
    (us : list User.t) (found : User.t) :
  find p us = Some found ->
  exists before after,
    us = before ++ found :: after
    /\ mutateFirst p f us = before ++ f found :: after.
Proof.
  induction us as [|u us IH]; simpl; [discriminate|].
  destruct (p u) eqn:Hp.
  - intros [= ->]. now exists [], us.
  - intros Hf. destruct (IH Hf) as (before & after & -> & ->).
    now exists (u :: before), after.
Qed.

Lemma mutateFirst_none (p : User.t -> bool) (f : User.t -> User.t) (us : list User.t) :
  find p us = None -> mutateFirst p f us = us.
Proof.
  induction us as [|u us IH]; simpl; [reflexivity|].
  destruct (p u); [discriminate | intros H; now rewrite IH].
Qed.

(** With distinct ids, a property of every user that depends on the user
    and on a map survives rewriting one user and the map at that user's id. *)
Lemma Forall_mutateFirst_at (P P' : User.t -> Prop) (p : User.t -> bool)
    (f : User.t -> User.t) (us : list User.t) (found : User.t) :
  NoDup (userIds us) -> find p us = Some found ->
  P' (f found) ->
  (forall u, User.id u <> User.id found -> P u -> P' u) ->
  Forall P us -> Forall P' (mutateFirst p f us).
Proof.
  intros Hnd Hf Hnew Hother Hall.
  destruct (mutateFirst_split p f us found Hf) as (before & after & -> & ->).
  unfold userIds in Hnd. rewrite map_app in Hnd. simpl in Hnd.
  apply NoDup_app in Hnd as (_ & Hba & Hnd).
  apply NoDup_cons in Hnd as [Hafter _].
  apply Forall_app in Hall as [Hb Ha]. apply Forall_cons in Ha as [_ Ha].
  apply Forall_app. split; [|constructor; [assumption|]].
  - rewrite List.Forall_forall in *. intros u Hu. apply Hother; [|now apply Hb].
    intros Heq. apply (Hba (User.id u)).
    + rewrite list_elem_of_In. now apply in_map.
    + rewrite Heq. left.
  - rewrite List.Forall_forall in *. intros u Hu. apply Hother; [|now apply Ha].
    intros Heq. apply Hafter. rewrite <- Heq, list_elem_of_In. now apply in_map.
Qed.

Lemma Forall_usersSet_at (P P' : User.t -> Prop) (user : User.t) (us : list User.t) :
  NoDup (userIds us) ->
  P' user ->
  (forall u, User.id u <> User.id user -> P u -> P' u) ->
  Forall P us -> Forall P' (usersSet user us).
Proof.
  intros Hnd Hnew Hother. induction us as [|u us IH]; simpl; intros Hall.
  - constructor; [assumption | constructor].
  - apply Forall_cons in Hall as [Hu Hall].
    unfold userIds in Hnd. simpl in Hnd. apply NoDup_cons in Hnd as [Hnot Hnd].
    destruct (String.eqb_spec (User.id u) (User.id user)) as [Heq|Hne].
    + constructor; [assumption|].
      rewrite List.Forall_forall in *. intros v Hv. apply Hother; [|now apply Hall].
      intros Hv'. apply Hnot. rewrite Heq, <- Hv', list_elem_of_In. now apply in_map.
    + constructor; [now apply Hother | now apply IH].
Qed.

Lemma Forall_mutateFirst (P : User.t -> Prop) (p : User.t -> bool)
    (f : User.t -> User.t) (us : list User.t) :
  (forall u, P u -> P (f u)) -> Forall P us -> Forall P (mutateFirst p f us).
Proof.
  intros Hf. induction 1 as [|u us Hu Hall IH]; simpl; [constructor|].
  destruct (p u); constructor; auto.
Qed.

Lemma Forall_scrub (P : User.t -> Prop) (groupId : string) (members : list string)
    (us : list User.t) :
  (forall gs u, P u -> P (User.setGroups gs u)) ->
  Forall P us ->
  Forall P (fold_left (fun us memberId =>
              mutateFirst (hasId memberId)
                (fun u => User.setGroups (without groupId (User.groups u)) u) us)
              members us).
Proof.
  intros Hf. revert us. induction members as [|m members IH]; intros us Hall; simpl;
    [assumption|].
  apply IH. apply Forall_mutateFirst; [|assumption]. intros u. apply Hf.
Qed.

(** ** Who is online is who is bound *)

Lemma addGroup_bindingOf (groupId : string) (u : User.t) :
  bindingOf (addGroup groupId u) = bindingOf u.
Proof. unfold addGroup. now destruct (includes _ _). Qed.

Lemma step_presence (e : Env) (ev : Event) (s : Server) :
  NoDup (userIds (users s)) ->
  Forall (fun u => userSocketMap s !! User.id u = bindingOf u) (users s) ->
  Forall (fun u => userSocketMap (step e ev s).1 !! User.id u = bindingOf u)
         (users (step e ev s).1).
Proof.
  intros Hnd Hall. each_branch ev; try assumption.
  all: try (apply Forall_scrub; [intros gs u Hu; exact Hu | assumption]).
  all: try (apply Forall_mutateFirst; [|assumption]; intros u Hu;
            first [ now rewrite addGroup_id, addGroup_bindingOf | exact Hu ]).
  - (* [user:join], a known name *)
    eapply Forall_mutateFirst_at; try eassumption; simpl.
    + now rewrite lookup_insert_eq.
    + intros u Hne Hu. now rewrite lookup_insert_ne by congruence.
  - (* [user:join], a new user *)
    eapply Forall_usersSet_at; try eassumption; simpl.
    + now rewrite lookup_insert_eq.
    + intros u Hne Hu. now rewrite lookup_insert_ne by congruence.
  - (* [user:reconnect] *)
    match goal with H : usersGet _ _ = Some _ |- _ =>
      pose proof (usersGet_Some_hasId _ _ _ H) as [_ Hfound] end.
    eapply Forall_mutateFirst_at; try eassumption; simpl.
    + now rewrite Hfound, lookup_insert_eq.
    + intros u Hne Hu. rewrite lookup_insert_ne by congruence. exact Hu.
  - (* [user:leave] *)
    match goal with H : usersGet _ _ = Some _ |- _ =>
      pose proof (usersGet_Some_hasId _ _ _ H) as [_ Hfound] end.
    eapply Forall_mutateFirst_at; try eassumption; simpl.
    + now rewrite Hfound, lookup_delete_eq.
    + intros u Hne Hu. rewrite lookup_delete_ne by congruence. exact Hu.
  - (* disconnect *)
    match goal with H : usersGet _ _ = Some _ |- _ =>
      pose proof (usersGet_Some_hasId _ _ _ H) as [_ Hfound] end.
    eapply Forall_mutateFirst_at; try eassumption; simpl.
    + now rewrite Hfound, lookup_delete_eq.
    + intros u Hne Hu. rewrite lookup_delete_ne by congruence. exact Hu.
Qed.

Lemma reachable_presence (serverId : string) (s : Server) (u : User.t) :
  reachable serverId s -> In u (users s) ->
  userSocketMap s !! User.id u = bindingOf u.
Proof.
  intros Hs. revert u. apply List.Forall_forall.
  induction Hs as [createdAt|s e ev Hs IH]; [constructor|].
  apply step_presence; [now apply (reachable_NoDup_userIds serverId) | exact IH].
Qed.

(** X15.  In every reachable state [userSocketMap] and the user records
    agree: a user who is online is bound, to the socket the record names,
    and a user who is offline is not bound.  No two users of the table have
    one id. *)
Theorem presence_is_consistent (serverId : string) (s : Server) :
  reachable serverId s -> presenceConsistent s.
Proof.
  intros Hs. split; [now apply (reachable_NoDup_userIds serverId)|].
  intros u Hu. now apply (reachable_presence serverId).
Qed.

Lemma presence_is_consistent_witness :
  presenceConsistent bobAway
  /\ userSocketMap bobAway !! "u2" = None /\ userSocketMap bobAway !! "u1" = Some "s1".
Proof.
  split; [|split; reflexivity].
  apply (presence_is_consistent "server1"). unfold bobAway, demo.
  apply reachable_run, reachable_run. constructor.
Defined.

(** ** Members are users *)

Lemma userOf_Some (userId : option string) (s : Server) (u : User.t) :
  userOf userId s = Some u ->
  exists uid, userId = Some uid /\ Js.truthy uid = true /\ usersGet uid (users s) = Some u.
Proof.
  unfold userOf. destruct userId as [uid|]; [|discriminate].
  destruct (Js.truthy uid) eqn:Ht; [|discriminate]. eauto.
Qed.

Lemma includes_In (x : string) (l : list string) : includes x l = true <-> In x l.
Proof.
  unfold includes. rewrite existsb_exists. split.
  - intros (y & Hy & Heq). apply String.eqb_eq in Heq. now subst.
  - intros Hin. exists x. split; [assumption | apply String.eqb_refl].
Qed.

Lemma without_In (x y : string) (l : list string) : In y (without x l) <-> In y l /\ y <> x.
Proof.
  unfold without. rewrite filter_In, negb_true_iff. now rewrite String.eqb_neq.
Qed.

Lemma NoDup_without (x : string) (l : list string) : NoDup l -> NoDup (without x l).
Proof.
  unfold without. induction 1 as [|y l Hy Hl IH]; simpl; [constructor|].
  destruct (negb _); [|assumption].
  constructor; [|assumption]. rewrite list_elem_of_In in *.
  intros Hin. apply filter_In in Hin as [Hin _]. contradiction.
Qed.

Lemma step_membersKnown (e : Env) (ev : Event) (s : Server) :
  membersKnown s -> membersKnown (step e ev s).1.
Proof.
  unfold membersKnown. intros Hinv groupId' group' Hg.
  each_branch ev; ids_kept; try exact (Hinv _ _ Hg).
  - (* [user:join], a new user *)
    destruct (Hinv _ _ Hg) as [Hnd Hknown]. split; [assumption|].
    intros memberId Hin. apply userIds_usersSet. right. now apply Hknown.
  - (* [group:create] *)
    apply lookup_insert_Some in Hg as [[_ <-]|[_ Hg]]; [|exact (Hinv _ _ Hg)]. simpl.
    match goal with H : userOf _ _ = Some _ |- _ =>
      apply userOf_Some in H as (uid & Hid & _ & Hu) end.
    rewrite Hid. simpl. split.
    + apply NoDup_cons_2; [apply not_elem_of_nil | constructor].
    + intros memberId [<-|[]]. apply usersGet_is_Some. eauto.
  - (* [group:join] *)
    apply lookup_insert_Some in Hg as [[_ <-]|[_ Hg]]; [|exact (Hinv _ _ Hg)]. simpl.
    match goal with H : userOf _ _ = Some _ |- _ =>
      apply userOf_Some in H as (uid & Hid & _ & Hu) end.
    rewrite Hid in *. simpl in *.
    match goal with H : groups s !! _ = Some _ |- _ =>
      destruct (Hinv _ _ H) as [Hnd Hknown] end.
    split.
    + apply NoDup_app. repeat split; [assumption | | apply NoDup_singleton].
      intros x Hx Hx'. apply list_elem_of_singleton in Hx' as ->.
      rewrite list_elem_of_In, <- includes_In in Hx. congruence.
    + intros memberId Hin. apply in_app_or in Hin as [Hin|[<-|[]]]; [now apply Hknown|].
      apply usersGet_is_Some. eauto.
  - (* [group:leave], the last member *)
    apply lookup_delete_Some in Hg as [Hne Hg].
    rewrite lookup_insert_ne in Hg by assumption. exact (Hinv _ _ Hg).
  - (* [group:leave], members remain *)
    apply lookup_insert_Some in Hg as [[_ <-]|[_ Hg]]; [|exact (Hinv _ _ Hg)]. simpl.
    match goal with H : groups s !! _ = Some _ |- _ =>
      destruct (Hinv _ _ H) as [Hnd Hknown] end.
    split; [now apply NoDup_without|].
    intros memberId Hin. apply without_In in Hin as [Hin _]. now apply Hknown.
  - (* [group:delete] *)
    apply lookup_delete_Some in Hg as [_ Hg]. exact (Hinv _ _ Hg).
Qed.

Lemma reachable_membersKnown (serverId : string) (s : Server) :
  reachable serverId s -> membersKnown s.
Proof.
  induction 1 as [createdAt|s e ev Hs IH]; [|now apply step_membersKnown].
  intros groupId group Hg. apply init_groups in Hg as (index & groupData & _ & -> & _).
  simpl. split; [constructor | intros memberId []].
Qed.

(** X16.  In every reachable state every group lists each of its members
    once, and every member is a user of the table. *)
Theorem members_are_known_users (serverId : string) (s : Server)
    (groupId : string) (group : Group.t) :
  reachable serverId s -> groups s !! groupId = Some group ->
  NoDup (Group.members group)
  /\ forall memberId, In memberId (Group.members group) ->
       is_Some (usersGet memberId (users s)).
Proof.
  intros Hs Hg. destruct (reachable_membersKnown _ _ Hs _ _ Hg) as [Hnd Hknown].
  split; [assumption|]. intros memberId Hin. apply usersGet_is_Some. now apply Hknown.
Qed.

Lemma members_are_known_users_witness :
  NoDup ["u1"; "u2"]
  /\ forall memberId, In memberId ["u1"; "u2"] -> is_Some (usersGet memberId (users demo)).
Proof.
  apply (members_are_known_users "server1" demo "g1"
           (Group.mk "g1" "G" None "u1" ["u1"; "u2"] 6)).
  - unfold demo. apply reachable_run. constructor.
  - reflexivity.
Defined.

Lemma omap_usersGet_known (us : list User.t) (members : list string) :
  (forall memberId, In memberId members -> In memberId (userIds us)) ->
  map User.id (omap (fun userId => usersGet userId us) members) = members.
Proof.
  induction members as [|m members IH]; intros Hknown; simpl; [reflexivity|].
  destruct (proj2 (usersGet_is_Some m us) (Hknown m (or_introl eq_refl))) as [u Hu].
  rewrite Hu. simpl. apply usersGet_Some_hasId in Hu as [_ ->].
  f_equal. apply IH. intros x Hx. apply Hknown. now right.
Qed.

(** X17.  [GET /groups/:groupId/users] drops nobody: in every reachable
    state it answers, for a group of the directory, with one user record
    per member, in the order of the member list. *)
Theorem groupUsersRoute_lists_every_member (serverId : string) (s : Server)
    (groupId : string) (group : Group.t) :
  reachable serverId s -> groups s !! groupId = Some group ->
  exists found, groupUsersRoute groupId s = Some found
                /\ map User.id found = Group.members group.
Proof.
  intros Hs Hg. unfold groupUsersRoute. rewrite Hg. eexists. split; [reflexivity|].
  apply omap_usersGet_known.
  now apply (reachable_membersKnown serverId s Hs groupId group).
Qed.

Lemma groupUsersRoute_lists_every_member_witness :
  exists found, groupUsersRoute "g1" demo = Some found
                /\ map User.id found = ["u1"; "u2"].
Proof.
  apply (groupUsersRoute_lists_every_member "server1" demo "g1"
           (Group.mk "g1" "G" None "u1" ["u1"; "u2"] 6)).
  - unfold demo. apply reachable_run. constructor.
  - reflexivity.
Defined.

(** ** One server *)

Lemma step_sameServer (e : Env) (ev : Event) (s : Server) :
  (forall x, In x (map User.serverId (users s)) -> x = serverId s) ->
  serverId (step e ev s).1 = serverId s
  /\ forall x, In x (map User.serverId (users (step e ev s).1)) -> x = serverId s.
Proof.
  intros Hsrv. each_branch ev; fields_kept; try (split; [reflexivity | assumption]).
  split; [reflexivity|].
  intros x Hx. apply in_map_usersSet in Hx as [->|Hx]; [reflexivity | now apply Hsrv].
Qed.

Lemma reachable_sameServer (serverId' : string) (s : Server) :
  reachable serverId' s ->
  serverId s = serverId'
  /\ forall u, In u (users s) -> User.serverId u = serverId'.
Proof.
  induction 1 as [createdAt|s e ev Hs [IH1 IH2]]; [split; [reflexivity | intros u []]|].
  assert (Hsrv : forall x, In x (map User.serverId (users s)) -> x = serverId s).
  { intros x Hx. apply in_map_iff in Hx as (u & <- & Hu). rewrite IH1. now apply IH2. }
  destruct (step_sameServer e ev s Hsrv) as [H1 H2]. split; [congruence|].
  intros u Hu. rewrite <- IH1. apply H2. now apply in_map.
Qed.

Lemma deleteIn_Refused (log : list Message.t) (messageId userId error : string)
    (senderOnly : option string) (mark : Message.t -> Message.t) :
  deleteIn log messageId userId senderOnly mark = Refused error ->
  error = "Message not found" \/ senderOnly = Some error.
Proof.
  unfold deleteIn. intros H. repeat case_match; try discriminate; injection H as <-; auto.
Qed.

(** X18.  Every user of the table carries the id of the server that made the
    record, so the test [sender.serverId !== recipient.serverId] of
    [message:private] never holds: in no reachable state is a request
    answered "Cannot message users from different servers". *)
Theorem different_servers_is_never_answered (serverId : string) (s : Server)
    (e : Env) (ev : Event) (sk : string) :
  reachable serverId s ->
  ~ In (Callback sk (RError differentServers)) (step e ev s).2.
Proof.
  intros Hs Hin. destruct (reachable_sameServer _ _ Hs) as [_ Hsrv].
  unfold differentServers in Hin.
  each_branch ev; try contradiction.
  all: repeat (apply in_app_or in Hin as [Hin|Hin]).
  all: try (apply notifyMembers_emits in Hin; discriminate Hin).
  all: try (apply emitToUser_emits in Hin; discriminate Hin).
  all: try (apply emitToOthers_emits in Hin; discriminate Hin).
  all: try (apply typingNotice_emits in Hin; discriminate Hin).
  all: try (simpl in Hin; intuition discriminate).
  all: try (apply in_flat_map in Hin as (m & _ & Hin); repeat case_match;
            simpl in Hin; try contradiction;
            try (apply emitToUser_emits in Hin; discriminate Hin);
            repeat (destruct Hin as [Hin|Hin]; [discriminate Hin|]); contradiction).
  1: { (* [message:private]: sender and recipient are users of this server *)
    apply userOf_Some in H0 as (uid & _ & _ & Hu).
    apply usersGet_Some_hasId in Hu as [Hu _]. apply usersGet_Some_hasId in H1 as [Hr _].
    rewrite (Hsrv _ Hu), (Hsrv _ Hr), String.eqb_refl in H2. discriminate H2. }
  all: destruct Hin as [Hin|[]]; injection Hin as _ ->;
    match goal with H : deleteIn _ _ _ _ _ = Refused _ |- _ =>
      apply deleteIn_Refused in H as [H|H]; discriminate H end.
Qed.

Lemma different_servers_is_never_answered_witness :
  ~ In (Callback "s1" (RError differentServers))
       (step (mkEnv 9 "m4") (On "s1" (MessagePrivate "u2" "hi" None None None)) demo).2.
Proof.
  apply (different_servers_is_never_answered "server1").
  unfold demo. apply reachable_run. constructor.
Defined.

(** ** [group:delete] *)

Lemma usersGet_mutateFirst_other (id id' : string) (f : User.t -> User.t) (us : list User.t) :
  id <> id' -> (forall u, User.id (f u) = User.id u) ->
  usersGet id (mutateFirst (hasId id') f us) = usersGet id us.
Proof.
  intros Hne Hf. unfold usersGet, hasId. induction us as [|u us IH]; simpl; [reflexivity|].
  destruct (String.eqb_spec (User.id u) id') as [Heq|Hne']; simpl.
  - rewrite Hf. destruct (String.eqb_spec (User.id u) id); [congruence | reflexivity].
  - destruct (String.eqb (User.id u) id); [reflexivity | exact IH].
Qed.

Lemma usersGet_scrub_other (groupId id : string) (members : list string) (us : list User.t) :
  ~ In id members ->
  usersGet id (fold_left (fun us memberId =>
                 mutateFirst (hasId memberId)
                   (fun u => User.setGroups (without groupId (User.groups u)) u) us)
                 members us) = usersGet id us.
Proof.
  revert us. induction members as [|m members IH]; intros us Hnot; simpl; [reflexivity|].
  rewrite IH by (intros H; apply Hnot; now right).
  apply usersGet_mutateFirst_other; [|reflexivity]. intros ->. apply Hnot. now left.
Qed.

Lemma usersGet_scrub_member (groupId id : string) (members : list string)
    (us : list User.t) (u' : User.t) :
  In id members ->
  usersGet id (fold_left (fun us memberId =>
                 mutateFirst (hasId memberId)
                   (fun u => User.setGroups (without groupId (User.groups u)) u) us)
                 members us) = Some u' ->
  ~ In groupId (User.groups u').
Proof.
  revert us. induction members as [|m members IH]; intros us Hin Hget; [destruct Hin|].
  simpl in Hget. destruct (in_dec string_dec id members) as [Hlater|Hnot].
  - exact (IH _ Hlater Hget).
  - destruct Hin as [->|Hin]; [|contradiction].
    rewrite usersGet_scrub_other in Hget by assumption.
    rewrite usersGet_mutateFirst in Hget by reflexivity.
    destruct (usersGet id us) as [u|]; [|discriminate]. injection Hget as <-. simpl.
    intros Hg. apply without_In in Hg as [_ Hg]. now apply Hg.
Qed.

(** X19.  When its creator sends [group:delete], the group leaves the
    directory, its log is deleted, and the group id is taken out of the
    group list of every member; a [group:join] for that id afterwards is
    answered "User or group not found". *)
Theorem groupDelete_by_creator (sid : string) (e : Env) (s : Server)
    (userId groupId : string) (user : User.t) (group : Group.t) :
  socketUserId sid s = Some userId -> Js.truthy userId = true ->
  usersGet userId (users s) = Some user ->
  groups s !! groupId = Some group -> Group.creator group = userId ->
  let r := step e (On sid (GroupDelete groupId)) s in
  last r.2 = Some (Callback sid RSuccess)
  /\ groups r.1 !! groupId = None
  /\ messages r.1 !! groupId = None
  /\ (forall memberId u,
        In memberId (Group.members group) ->
        usersGet memberId (users r.1) = Some u -> ~ In groupId (User.groups u))
  /\ forall sid' e',
       is_Some (sockets r.1 !! sid') ->
       step e' (On sid' (GroupJoin groupId)) r.1
       = (r.1, [Callback sid' (RError "User or group not found")]).
Proof.
  intros Hid Ht Hu Hg Hc. simpl.
  destruct (socketUserId_connected _ _ _ Hid) as [d ->].
  unfold groupDelete, userOf. rewrite Hid, Ht, Hu, Hg. simpl.
  rewrite Hc, String.eqb_refl. simpl.
  split; [now rewrite last_app|].
  split; [apply lookup_delete_eq|]. split; [apply lookup_delete_eq|]. split.
  - intros memberId u Hin Hget. now apply (usersGet_scrub_member _ _ _ _ _ Hin Hget).
  - intros sid' e' [d' Hd']. rewrite Hd'. unfold groupJoin. simpl.
    rewrite lookup_delete_eq. now destruct (userOf _ _).
Qed.

Lemma groupDelete_by_creator_witness :
  let r := step (mkEnv 9 "") (On "s1" (GroupDelete "g1")) demo in
  (User.groups <$> usersGet "u2" (users demo)) = Some ["g1"]
  /\ last r.2 = Some (Callback "s1" RSuccess)
  /\ groups r.1 !! "g1" = None
  /\ messages r.1 !! "g1" = None
  /\ (forall memberId u,
        In memberId ["u1"; "u2"] ->
        usersGet memberId (users r.1) = Some u -> ~ In "g1" (User.groups u))
  /\ forall sid' e',
       is_Some (sockets r.1 !! sid') ->
       step e' (On sid' (GroupJoin "g1")) r.1
       = (r.1, [Callback sid' (RError "User or group not found")]).
Proof.
  intros r. split; [reflexivity|].
  exact (groupDelete_by_creator "s1" (mkEnv 9 "") demo "u1" "g1"
           (User.mk "u1" "alice" "s1" "server1" ["g1"] true 2)
           (Group.mk "g1" "G" None "u1" ["u1"; "u2"] 6)
           eq_refl eq_refl eq_refl eq_refl eq_refl).
Defined.

(** ** Joining a group and leaving it again *)

Lemma without_app_self (x : string) (l : list string) :
  ~ In x l -> without x (l ++ [x]) = l.
Proof.
  intros Hnot. unfold without. rewrite List.filter_app. simpl.
  rewrite String.eqb_refl. simpl. rewrite app_nil_r.
  induction l as [|y l IH]; simpl; [reflexivity|].
  destruct (String.eqb_spec y x) as [->|Hne]; simpl.
  - exfalso. apply Hnot. now left.
  - f_equal. apply IH. intros H. apply Hnot. now right.
Qed.

(** X20.  A user who joins a group and leaves it again leaves the group
    record as it was, with the two system messages added to its log; but
    if the group had no member, as the sample groups have, the leave finds
    it empty again and deletes it with its log. *)
Theorem join_then_leave (sid : string) (e e' : Env) (s : Server)
    (userId groupId : string) (user : User.t) (group : Group.t) :
  socketUserId sid s = Some userId -> Js.truthy userId = true ->
  usersGet userId (users s) = Some user ->
  groups s !! groupId = Some group ->
  includes userId (Group.members group) = false ->
  let joined := (step e (On sid (GroupJoin groupId)) s).1 in
  let left := (step e' (On sid (GroupLeave groupId)) joined).1 in
  if Group.members group is [] then
    groups left !! groupId = None /\ messages left !! groupId = None
  else
    groups left !! groupId = Some group
    /\ messages left !! groupId
       = Some (default [] (messages s !! groupId)
               ++ [systemMessage e groupId (User.username user +:+ " joined the group");
                   systemMessage e' groupId (User.username user +:+ " left the group")]).
Proof.
  intros Hid Ht Hu Hg Hnot. simpl.
  destruct (socketUserId_connected _ _ _ Hid) as [d Hd]. rewrite Hd.
  unfold groupJoin, userOf. rewrite Hid, Ht, Hu, Hg. simpl. rewrite Hnot. simpl.
  rewrite Hd. unfold groupLeave, userOf, socketUserId in *. simpl. rewrite Hid, Ht. simpl.
  rewrite usersGet_mutateFirst by apply addGroup_id. rewrite Hu. simpl.
  rewrite lookup_insert_eq. simpl.
  assert (Hin : includes userId (Group.members group ++ [userId]) = true).
  { apply includes_In, in_or_app. right. now left. }
  rewrite Hin. simpl.
  assert (Hnot' : ~ In userId (Group.members group)).
  { intros H. apply includes_In in H. congruence. }
  rewrite (without_app_self _ _ Hnot'). rewrite addGroup_username.
  destruct group as [gid name descr creator members createdAt]. simpl in *.
  destruct members as [|m members]; simpl.
  - split; apply lookup_delete_eq.
  - rewrite !lookup_insert_eq. split; [reflexivity|].
    unfold pushMessage. rewrite !lookup_insert_eq. simpl. now rewrite <- app_assoc.
Qed.

Lemma join_then_leave_witness :
  let joined := (step (mkEnv 9 "m4") (On "s2" (GroupJoin "group-1")) demo).1 in
  let left := (step (mkEnv 10 "m5") (On "s2" (GroupLeave "group-1")) joined).1 in
  is_Some (groups demo !! "group-1")
  /\ groups left !! "group-1" = None /\ messages left !! "group-1" = None.
Proof.
  intros joined left. split; [vm_compute; eauto|].
  exact (join_then_leave "s2" (mkEnv 9 "m4") (mkEnv 10 "m5") demo "u2" "group-1"
           (User.mk "u2" "bob" "s2" "server1" ["g1"] true 4)
           (sampleGroup 0 0 ("General", "General discussions"))
           eq_refl eq_refl eq_refl eq_refl eq_refl).
Defined.

(** ** A name is taken up again by joining *)

Lemma reachableTrimmed_reachable (serverId : string) (s : Server) :
  reachableTrimmed serverId s -> reachable serverId s.
Proof. induction 1; now constructor. Qed.

Lemma reachableTrimmed_run (serverId : string) (evs : list (Env * Event)) (s : Server) :
  Forall (fun ev => trimmedJoin ev.2) evs ->
  reachableTrimmed serverId s -> reachableTrimmed serverId (run evs s).
Proof.
  intros Hevs. revert s. induction Hevs as [|[e ev] evs Hev _ IH]; intros s Hs; simpl;
    [assumption|].
  apply IH. now apply trimmed_step.
Qed.

Lemma step_names_not_blank (e : Env) (ev : Event) (s : Server) :
  trimmedJoin ev ->
  (forall x, In x (map User.username (users s)) -> blank x = false) ->
  forall x, In x (map User.username (users (step e ev s).1)) -> blank x = false.
Proof.
  intros Hev Hinv x. each_branch ev; fields_kept; try apply Hinv.
  intros Hx. apply in_map_usersSet in Hx as [->|Hx]; [|now apply Hinv].
  simpl. now rewrite Hev.
Qed.

Lemma reachableTrimmed_names_not_blank (serverId : string) (s : Server) (u : User.t) :
  reachableTrimmed serverId s -> In u (users s) -> blank (User.username u) = false.
Proof.
  intros Hs. revert u. induction Hs as [createdAt|s e ev Hs IH Hev]; intros u Hu.
  - destruct Hu.
  - apply (step_names_not_blank e ev s Hev); [|now apply in_map].
    intros x Hx. apply in_map_iff in Hx as (v & <- & Hv). now apply IH.
Qed.

Lemma usersGet_app_found (before after : list User.t) (u : User.t) :
  ~ In (User.id u) (userIds before) ->
  usersGet (User.id u) (before ++ u :: after) = Some u.
Proof.
  unfold usersGet, userIds. induction before as [|v before IH]; simpl; intros Hnot.
  - now rewrite String.eqb_refl.
  - destruct (String.eqb_spec (User.id v) (User.id u)) as [Heq|_]; [tauto|].
    apply IH. tauto.
Qed.

(** X21.  When every name is sent trimmed: a [user:join] with the name of a
    user who is offline makes no new user.  It is answered with that user's
    record, put online and bound to the joining socket, with the id and the
    groups the user had. *)
Theorem offline_name_is_taken_up (serverId : string) (s : Server) (sid : string)
    (e : Env) (u : User.t) :
  reachableTrimmed serverId s -> In u (users s) -> User.isOnline u = false ->
  let r := userJoin sid e (User.username u) s in
  let back := User.setPresence true sid (now e) u in
  last r.2 = Some (Callback sid (RJoined back (onlineOthers r.1 (User.id u))
                                         (groupValues r.1)))
  /\ usersGet (User.id u) (users r.1) = Some back
  /\ userIds (users r.1) = userIds (users s)
  /\ userSocketMap r.1 !! User.id u = Some sid
  /\ socketUserId sid r.1 = Some (User.id u).
Proof.
  intros Hs Hu Hoff.
  pose proof (reachableTrimmed_names_not_blank _ _ _ Hs Hu) as Hb.
  destruct (reachableTrimmed_namesDistinct _ _ Hs) as [Hsrv Hnames].
  pose proof (reachable_NoDup_userIds _ _ (reachableTrimmed_reachable _ _ Hs)) as Hids.
  assert (Hfind : find (sameName s (User.username u)) (users s) = Some u).
  { destruct (find _ _) as [u'|] eqn:Hf.
    - apply find_some in Hf as [Hu' Hsame]. unfold sameName in Hsame.
      apply andb_prop in Hsame as [Hn _]. apply String.eqb_eq in Hn.
      f_equal. now apply (NoDup_map_eq User.username (users s)).
    - pose proof (find_none _ _ Hf _ Hu) as Hno. unfold sameName in Hno.
      rewrite String.eqb_refl in Hno. simpl in Hno. apply String.eqb_neq in Hno.
      exfalso. apply Hno, Hsrv. now apply in_map. }
  simpl. unfold userJoin. unfold blank in Hb. rewrite Hb, Hfind, Hoff. simpl.
  destruct (mutateFirst_split _ (User.setPresence true sid (now e)) _ _ Hfind)
    as (before & after & Heq & ->).
  unfold socketUserId. simpl. rewrite !lookup_insert_eq. simpl.
  repeat split.
  - apply (usersGet_app_found before after (User.setPresence true sid (now e) u)).
    simpl. rewrite Heq in Hids. unfold userIds in *. rewrite map_app in Hids.
    apply NoDup_app in Hids as (_ & Hba & _). intros Hin.
    apply (Hba (User.id u)); [now apply list_elem_of_In | left].
  - rewrite Heq. unfold userIds. now rewrite !map_app.
Qed.

Lemma offline_name_is_taken_up_witness :
  let r := userJoin "s3" (mkEnv 11 "u9") "bob" bobAway in
  let back := User.mk "u2" "bob" "s3" "server1" ["g1"] true 11 in
  last r.2 = Some (Callback "s3" (RJoined back (onlineOthers r.1 "u2") (groupValues r.1)))
  /\ usersGet "u2" (users r.1) = Some back
  /\ userIds (users r.1) = userIds (users bobAway)
  /\ userSocketMap r.1 !! "u2" = Some "s3"
  /\ socketUserId "s3" r.1 = Some "u2".
Proof.
  apply (offline_name_is_taken_up "server1" bobAway "s3" (mkEnv 11 "u9")
           (User.mk "u2" "bob" "" "server1" ["g1"] false 9)).
  - unfold bobAway, demo.
    apply reachableTrimmed_run; [repeat constructor|].
    apply reachableTrimmed_run; [repeat constructor|]. constructor.
  - vm_compute. right; left; reflexivity.
  - reflexivity.
Defined.

(** ** Group names *)

Lemma groupValues_In (s : Server) (groupId : string) (group : Group.t) :
  groups s !! groupId = Some group -> In group (groupValues s).
Proof.
  intros Hg. unfold groupValues. apply list_elem_of_In, list_elem_of_fmap.
  exists (groupId, group). split; [reflexivity|]. now apply elem_of_map_to_list.
Qed.

(** X22.  [group:create] with the name of a group of the directory, in any
    letter case, is answered "Group already exists" and changes nothing. *)
Theorem groupCreate_refuses_taken_name (sid : string) (e : Env) (s : Server)
    (name : string) (description : option string) (user : User.t)
    (groupId : string) (group : Group.t) :
  userOf (socketUserId sid s) s = Some user ->
  blank name = false ->
  groups s !! groupId = Some group ->
  Js.toLowerCase (Group.name group) = Js.toLowerCase name ->
  groupCreate sid e name description s = (s, [Callback sid (RError "Group already exists")]).
Proof.
  intros Hu Hb Hg Hname. unfold groupCreate. rewrite Hu.
  unfold blank in Hb. rewrite Hb.
  assert (Hex : existsb (fun g => String.eqb (Js.toLowerCase (Group.name g))
                                            (Js.toLowerCase name)) (groupValues s) = true).
  { apply existsb_exists. exists group. split; [now apply (groupValues_In s groupId)|].
    now apply String.eqb_eq. }
  now rewrite Hex.
Qed.

Lemma groupCreate_refuses_taken_name_witness :
  groupCreate "s2" (mkEnv 9 "g2") "TECH TALK" None demo
  = (demo, [Callback "s2" (RError "Group already exists")]).
Proof.
  apply (groupCreate_refuses_taken_name "s2" (mkEnv 9 "g2") demo "TECH TALK" None
           (User.mk "u2" "bob" "s2" "server1" ["g1"] true 4) "group-2"
           (sampleGroup 0 1 ("Tech Talk", "Technology discussions")));
    reflexivity.
Defined.

(** Where the name of a group of the directory comes from: the group that
    was under that id, or a [group:create] that found the name free. *)
Lemma step_group_names (e : Env) (ev : Event) (s : Server) (groupId : string)
    (group' : Group.t) :
  groups (step e ev s).1 !! groupId = Some group' ->
  (exists group, groups s !! groupId = Some group
                 /\ Group.name group' = Group.name group)
  \/ (exists sid name description,
        ev = On sid (GroupCreate name description)
        /\ groupId = uuid e
        /\ Group.name group' = Js.trim name
        /\ forall id g, groups s !! id = Some g ->
             Js.toLowerCase (Group.name g) <> Js.toLowerCase name).
Proof.
  intros Hg. each_branch ev; try (left; eauto; fail).
  - (* [group:create] *)
    apply lookup_insert_Some in Hg as [[<- <-]|[_ Hg]]; [right | left; eauto].
    eexists _, _, _. repeat split. intros id g Hid Hname.
    match goal with H : existsb _ _ = false |- _ =>
      rewrite <- not_true_iff_false in H; apply H end.
    apply existsb_exists. exists g. split; [now apply (groupValues_In s id)|].
    now apply String.eqb_eq.
  - apply lookup_insert_Some in Hg as [[<- <-]|[_ Hg]]; left; eauto.
  - apply lookup_delete_Some in Hg as [Hne Hg].
    rewrite lookup_insert_ne in Hg by assumption. left; eauto.
  - apply lookup_insert_Some in Hg as [[<- <-]|[_ Hg]]; left; eauto.
  - apply lookup_delete_Some in Hg as [_ Hg]. left; eauto.
Qed.

Lemma step_groupNamesDistinct (e : Env) (ev : Event) (s : Server) :
  trimmedCreate ev -> groupNamesDistinct s -> groupNamesDistinct (step e ev s).1.
Proof.
  intros Hev Hinv id1 g1 id2 g2 H1 H2 Hname.
  destruct (step_group_names _ _ _ _ _ H1) as [(o1 & Ho1 & Hn1)|(sid & name & d & -> & -> & Hn1 & Hfree1)];
  destruct (step_group_names _ _ _ _ _ H2) as [(o2 & Ho2 & Hn2)|(sid' & name' & d' & Hev' & -> & Hn2 & Hfree2)].
  - apply (Hinv id1 o1 id2 o2); congruence.
  - exfalso. simpl in Hev'. subst ev. simpl in Hev.
    apply (Hfree2 id1 o1 Ho1). rewrite <- Hn1, Hname, Hn2. now rewrite Hev.
  - exfalso. simpl in Hev.
    apply (Hfree1 id2 o2 Ho2). rewrite <- Hn2, <- Hname, Hn1. now rewrite Hev.
  - reflexivity.
Qed.

Lemma init_groupNamesDistinct (serverId : string) (createdAt : Z) :
  groupNamesDistinct (init serverId createdAt).
Proof.
  intros id1 g1 id2 g2 H1 H2 Hname.
  apply init_groups in H1 as (i1 & d1 & Hd1 & -> & ->).
  apply init_groups in H2 as (i2 & d2 & Hd2 & -> & ->).
  unfold sampleGroups in *.
  destruct i1 as [|[|[|[|i1]]]]; simpl in Hd1; try discriminate Hd1; injection Hd1 as <-;
  destruct i2 as [|[|[|[|i2]]]]; simpl in Hd2; try discriminate Hd2; injection Hd2 as <-;
  first [reflexivity | discriminate Hname].
Qed.

(** X23.  When every [group:create] sends its name trimmed, no two groups of
    the directory ever have the same name, letter case aside. *)
Theorem group_names_stay_distinct (serverId : string) (createdAt : Z)
    (evs : list (Env * Event)) :
  Forall (fun ev => trimmedCreate ev.2) evs ->
  groupNamesDistinct (run evs (init serverId createdAt)).
Proof.
  intros Hevs. generalize (init_groupNamesDistinct serverId createdAt).
  generalize (init serverId createdAt) as s.
  induction Hevs as [|[e ev] evs Hev _ IH]; intros s Hs; simpl; [assumption|].
  apply IH. now apply step_groupNamesDistinct.
Qed.

Lemma group_names_stay_distinct_witness : groupNamesDistinct demo.
Proof.
  apply (group_names_stay_distinct "server1" 0 demoEvents). repeat constructor.
Defined.

(** ** A private message to a recipient who is online *)

(** X24.  In a reachable state, an identified sender writes a non-blank
    private message to a user who is online (on a socket with a non-empty
    id).  The message is pushed to the socket the recipient's record names,
    the sender is told [message:delivered] and gets the echo, and the
    callback reports [delivered: true], [recipientOnline: true]. *)
Theorem private_message_to_online_recipient (serverId : string) (s : Server)
    (sid : string) (e : Env) (senderId recipientId content : string)
    (attachments : option (list string)) (replyTo : option string)
    (repliedMessage : option Replied.t) (sender recipient : User.t) :
  reachable serverId s ->
  socketUserId sid s = Some senderId -> Js.truthy senderId = true ->
  usersGet senderId (users s) = Some sender ->
  usersGet recipientId (users s) = Some recipient ->
  blank content = false ->
  User.isOnline recipient = true -> Js.truthy (User.socketId recipient) = true ->
  let r := step e (On sid (MessagePrivate recipientId content attachments
                             replyTo repliedMessage)) s in
  let message := Message.mk (uuid e) Message.KPrivate senderId recipientId
                   (Js.trim content) attachments (now e) true false
                   (Js.orUndefined replyTo) repliedMessage None None None in
  r.2 = [ Emit (User.socketId recipient) "message:received"
            (PMessage message (User.username sender) None (Some true) None);
          Emit sid "message:delivered" (PDelivered (uuid e) recipientId);
          Emit sid "message:received"
            (PMessage message (User.username sender) None (Some true) (Some true));
          Callback sid (RPrivateMessage message true true) ]
  /\ messages r.1 !! conversationKey senderId recipientId
     = Some (default [] (messages s !! conversationKey senderId recipientId) ++ [message]).
Proof.
  intros Hs Hid Ht Hsnd Hrcp Hb Hon Hsock.
  destruct (socketUserId_connected _ _ _ Hid) as [d Hd].
  destruct (reachable_sameServer _ _ Hs) as [Hsrv Hall].
  pose proof (usersGet_Some_hasId _ _ _ Hsnd) as [Hsin _].
  pose proof (usersGet_Some_hasId _ _ _ Hrcp) as [Hrin Hrid].
  pose proof (reachable_presence _ _ _ Hs Hrin) as Hbind.
  unfold bindingOf in Hbind. rewrite Hon, Hrid in Hbind.
  simpl. rewrite Hd. unfold messagePrivate, userOf. rewrite Hid, Ht, Hsnd, Hrcp. simpl.
  rewrite (Hall _ Hsin), (Hall _ Hrin), Hsrv, String.eqb_refl, Hb, Hon. simpl.
  rewrite Hbind, Hsock. simpl. split; [reflexivity|].
  unfold pushMessage. apply lookup_insert_eq.
Qed.

Lemma private_message_to_online_recipient_witness :
  let r := step (mkEnv 9 "m4") (On "s2" (MessagePrivate "u1" "hello alice" None None None))
                demo in
  let message := Message.mk "m4" Message.KPrivate "u2" "u1" "hello alice" None 9
                   true false None None None None None in
  r.2 = [ Emit "s1" "message:received" (PMessage message "bob" None (Some true) None);
          Emit "s2" "message:delivered" (PDelivered "m4" "u1");
          Emit "s2" "message:received" (PMessage message "bob" None (Some true) (Some true));
          Callback "s2" (RPrivateMessage message true true) ]
  /\ messages r.1 !! conversationKey "u2" "u1" = Some ([demoM1] ++ [message]).
Proof.
  apply (private_message_to_online_recipient "server1" demo "s2" (mkEnv 9 "m4")
           "u2" "u1" "hello alice" None None None
           (User.mk "u2" "bob" "s2" "server1" ["g1"] true 4)
           (User.mk "u1" "alice" "s1" "server1" ["g1"] true 2));
    try reflexivity.
  unfold demo. apply reachable_run. constructor.
Defined.

(** ** Membership is recorded on both sides *)

Lemma addGroup_groups (groupId x : string) (u : User.t) :
  In x (User.groups (addGroup groupId u)) <-> In x (User.groups u) \/ x = groupId.
Proof.
  unfold addGroup. destruct (includes groupId (User.groups u)) eqn:Hinc; simpl.
  - apply includes_In in Hinc. split; [auto | intros [H| ->]; assumption].
  - rewrite in_app_iff. simpl. intuition.
Qed.

Section Membership.
Context (gs : gmap string Group.t) (groupId userId : string).

(** [group:create] *)
Lemma lists_create_self (g0 : Group.t) (u : User.t) :
  gs !! groupId = None -> Group.members g0 = [userId] -> User.id u = userId ->
  listsOwnGroups gs u -> listsOwnGroups (<[groupId := g0]> gs) (addGroup groupId u).
Proof.
  intros Hfree Hm Hid Hu x. rewrite addGroup_groups, addGroup_id. split.
  - intros [Hx| ->].
    + apply Hu in Hx as (g & Hg & Hin). exists g. split; [|assumption].
      rewrite lookup_insert_ne; [assumption | congruence].
    + exists g0. rewrite lookup_insert_eq, Hm, Hid. split; [reflexivity | now left].
  - intros (g & Hg & Hin). apply lookup_insert_Some in Hg as [[<- <-]|[Hne Hg]]; [now right|].
    left. apply Hu. eauto.
Qed.

Lemma lists_create_other (g0 : Group.t) (u : User.t) :
  gs !! groupId = None -> Group.members g0 = [userId] -> User.id u <> userId ->
  listsOwnGroups gs u -> listsOwnGroups (<[groupId := g0]> gs) u.
Proof.
  intros Hfree Hm Hid Hu x. split.
  - intros Hx. apply Hu in Hx as (g & Hg & Hin). exists g. split; [|assumption].
    rewrite lookup_insert_ne; [assumption | congruence].
  - intros (g & Hg & Hin). apply lookup_insert_Some in Hg as [[<- <-]|[Hne Hg]].
    + rewrite Hm in Hin. destruct Hin as [Hin|[]]. congruence.
    + apply Hu. eauto.
Qed.

(** [group:join] and [group:leave]: the member list of one group changes. *)
Lemma lists_members_other (g : Group.t) (members' : list string) (u : User.t) :
  gs !! groupId = Some g ->
  (In (User.id u) members' <-> In (User.id u) (Group.members g)) ->
  listsOwnGroups gs u ->
  listsOwnGroups (<[groupId := Group.setMembers members' g]> gs) u.
Proof.
  intros Hg Hsame Hu x. rewrite (Hu x). split; intros (g' & Hg' & Hin).
  - destruct (decide (groupId = x)) as [<-|Hne].
    + exists (Group.setMembers members' g). rewrite lookup_insert_eq. split; [reflexivity|].
      simpl. apply Hsame. congruence.
    + exists g'. now rewrite lookup_insert_ne.
  - apply lookup_insert_Some in Hg' as [[<- <-]|[Hne Hg']]; [|eauto].
    exists g. split; [assumption|]. now apply Hsame.
Qed.

Lemma lists_join_self (g : Group.t) (u : User.t) :
  gs !! groupId = Some g -> User.id u = userId ->
  listsOwnGroups gs u ->
  listsOwnGroups (<[groupId := Group.setMembers (Group.members g ++ [userId]) g]> gs)
                 (addGroup groupId u).
Proof.
  intros Hg Hid Hu x. rewrite addGroup_groups, addGroup_id. split.
  - intros [Hx| ->].
    + apply Hu in Hx as (g' & Hg' & Hin). destruct (decide (groupId = x)) as [<-|Hne].
      * eexists. rewrite lookup_insert_eq. split; [reflexivity|]. simpl.
        apply in_or_app. right. now left.
      * exists g'. now rewrite lookup_insert_ne.
    + eexists. rewrite lookup_insert_eq. split; [reflexivity|]. simpl.
      apply in_or_app. right. now left.
  - intros (g' & Hg' & Hin). apply lookup_insert_Some in Hg' as [[<- <-]|[Hne Hg']];
      [now right|]. left. apply Hu. eauto.
Qed.

Lemma lists_leave_self (g : Group.t) (u : User.t) :
  gs !! groupId = Some g -> User.id u = userId ->
  listsOwnGroups gs u ->
  listsOwnGroups (<[groupId := Group.setMembers (without userId (Group.members g)) g]> gs)
                 (scrub groupId u).
Proof.
  intros Hg Hid Hu x. unfold scrub. simpl. rewrite without_In. split.
  - intros [Hx Hne]. apply Hu in Hx as (g' & Hg' & Hin). exists g'.
    rewrite lookup_insert_ne by congruence. auto.
  - intros (g' & Hg' & Hin). apply lookup_insert_Some in Hg' as [[<- <-]|[Hne Hg']].
    + simpl in Hin. apply without_In in Hin as [_ Hin]. congruence.
    + split; [apply Hu; eauto | congruence].
Qed.

(** A group goes: [group:delete], and [group:leave] by the last member. *)
Lemma lists_delete_scrub (u : User.t) :
  listsOwnGroups gs u -> listsOwnGroups (delete groupId gs) (scrub groupId u).
Proof.
  intros Hu x. unfold scrub. simpl. rewrite without_In. split.
  - intros [Hx Hne]. apply Hu in Hx as (g' & Hg' & Hin). exists g'.
    rewrite lookup_delete_ne by congruence. auto.
  - intros (g' & Hg' & Hin). apply lookup_delete_Some in Hg' as [Hne Hg'].
    split; [apply Hu; eauto | congruence].
Qed.

Lemma lists_delete_other (g : Group.t) (u : User.t) :
  gs !! groupId = Some g -> ~ In (User.id u) (Group.members g) ->
  listsOwnGroups gs u -> listsOwnGroups (delete groupId gs) u.
Proof.
  intros Hg Hnot Hu x. rewrite (Hu x). split; intros (g' & Hg' & Hin).
  - exists g'. split; [|assumption]. apply lookup_delete_Some. split; [|assumption].
    intros <-. congruence.
  - apply lookup_delete_Some in Hg' as [_ Hg']. eauto.
Qed.
End Membership.

Lemma without_without (x : string) (l : list string) : without x (without x l) = without x l.
Proof.
  unfold without. induction l as [|y l IH]; simpl; [reflexivity|].
  destruct (negb (String.eqb y x)) eqn:Hy; simpl; [rewrite Hy; f_equal|]; exact IH.
Qed.

(** The loop of [group:delete]: with distinct ids, every member's record is
    scrubbed and the other records stay. *)
Lemma Forall_scrub_members (Q : User.t -> Prop) (groupId : string)
    (members : list string) (us : list User.t) :
  NoDup (userIds us) ->
  Forall (fun u => Q (scrub groupId u) /\ (~ In (User.id u) members -> Q u)) us ->
  Forall Q (fold_left (fun us memberId => mutateFirst (hasId memberId) (scrub groupId) us)
                      members us).
Proof.
  revert us. induction members as [|m members IH]; intros us Hnd Hall; simpl.
  - eapply Forall_impl; [exact Hall|]. intros u [_ Hu]. apply Hu. intros [].
  - apply IH; [now rewrite userIds_mutateFirst by reflexivity|].
    destruct (find (hasId m) us) as [found|] eqn:Hf.
    + eapply Forall_mutateFirst_at; try eassumption.
      * unfold scrub at 1 3. simpl. rewrite without_without.
        rewrite List.Forall_forall in Hall. apply find_some in Hf as [Hf _].
        destruct (Hall _ Hf) as [Hq _]. split; [exact Hq | intros _; exact Hq].
      * intros u Hne [Hq Hu]. split; [exact Hq|]. intros Hnot. apply Hu.
        intros [Heq|Hin]; [|contradiction].
        apply find_some in Hf as [_ Hid]. unfold hasId in Hid.
        apply String.eqb_eq in Hid. congruence.
    + rewrite mutateFirst_none by assumption.
      rewrite List.Forall_forall in *. intros u Hin. destruct (Hall u Hin) as [Hq Hu].
      split; [exact Hq|]. intros Hnot. apply Hu. intros [Heq|Hin']; [|contradiction].
      pose proof (find_none _ _ Hf _ Hin) as Hno. unfold hasId in Hno.
      apply String.eqb_neq in Hno. congruence.
Qed.

Lemma step_listsOwnGroups (e : Env) (ev : Event) (s : Server) :
  freshId s e ev -> NoDup (userIds (users s)) -> membersKnown s ->
  Forall (listsOwnGroups (groups s)) (users s) ->
  Forall (listsOwnGroups (groups (step e ev s).1)) (users (step e ev s).1).
Proof.
  intros Hfresh Hnd Hknown Hall. each_branch ev; try assumption.
  all: try (apply Forall_mutateFirst; [|assumption]; intros u Hu; exact Hu).
  all: repeat match goal with H : userOf _ _ = Some _ |- _ =>
         apply userOf_Some in H as (uid & Hid & _ & Hfound);
         pose proof (usersGet_Some_hasId _ _ _ Hfound) as [Hmem Huid];
         pose proof (proj1 (List.Forall_forall _ _) Hall _ Hmem) as Hself;
         rewrite Hid in *; simpl in *
       end.
  - (* [user:join], a new user *)
    eapply Forall_usersSet_at; try eassumption; [|auto].
    intros x. simpl. split; [intros []|]. intros (g & Hg & Hin).
    exfalso. apply Hfresh. now apply (Hknown _ _ Hg).
  - (* [group:create] *)
    eapply Forall_mutateFirst_at; try eassumption.
    + apply lists_create_self with uid; auto.
    + intros u Hne. apply lists_create_other with uid; [assumption | reflexivity | congruence].
  - (* [group:join] *)
    eapply Forall_mutateFirst_at; try eassumption.
    + apply lists_join_self; auto.
    + intros u Hne. apply lists_members_other; [assumption|].
      rewrite in_app_iff. simpl.
      split; [intros [Hm|[Hm|[]]]; [assumption | congruence] | auto].
  - (* [group:leave], the last member *)
    rewrite delete_insert_eq.
    match goal with H : (length _ =? 0)%nat = true |- _ =>
      apply Nat.eqb_eq, length_zero_iff_nil in H; rename H into Hlast end.
    eapply Forall_mutateFirst_at; try eassumption.
    + now apply lists_delete_scrub.
    + intros u Hne. eapply lists_delete_other; [eassumption|].
      intros Hin.
      assert (Hne' : User.id u <> uid) by congruence.
      pose proof (proj2 (without_In uid _ _) (conj Hin Hne')) as Hin'.
      rewrite Hlast in Hin'. destruct Hin'.
  - (* [group:leave], members remain *)
    eapply Forall_mutateFirst_at; try eassumption.
    + apply lists_leave_self; auto.
    + intros u Hne. apply lists_members_other; [assumption|].
      rewrite without_In.
      split; [now intros [Hm _] | intros Hm; split; [assumption | congruence]].
  - (* [group:delete] *)
    apply (Forall_scrub_members _ groupId); [assumption|].
    eapply Forall_impl; [exact Hall|]. intros u Hu. split.
    + now apply lists_delete_scrub.
    + intros Hnot. eapply lists_delete_other; eassumption.
Qed.

Lemma reachableFresh_reachable (serverId : string) (s : Server) :
  reachableFresh serverId s -> reachable serverId s.
Proof. induction 1; now constructor. Qed.

Lemma reachableFresh_run (serverId : string) (evs : list (Env * Event)) (s : Server) :
  reachableFresh serverId s -> allFresh evs s -> reachableFresh serverId (run evs s).
Proof.
  revert s. induction evs as [|[e ev] evs IH]; intros s Hs Hevs; simpl; [assumption|].
  destruct Hevs as [Hev Hevs]. apply IH; [now apply fresh_step | exact Hevs].
Qed.

(** X25.  When no id is given twice, the two records of membership agree
    in every reachable state: a group id is in a user's group list exactly
    when the directory has that group and the group lists the user. *)
Theorem membership_is_two_sided (serverId : string) (s : Server) (u : User.t)
    (groupId : string) :
  reachableFresh serverId s -> In u (users s) ->
  (In groupId (User.groups u)
   <-> exists group, groups s !! groupId = Some group
                     /\ In (User.id u) (Group.members group)).
Proof.
  intros Hs Hu.
  assert (Hall : Forall (listsOwnGroups (groups s)) (users s)).
  { clear u Hu. induction Hs as [createdAt|s e ev Hs IH Hev]; [constructor|].
    pose proof (reachableFresh_reachable _ _ Hs) as Hr.
    apply step_listsOwnGroups; try assumption.
    - now apply (reachable_NoDup_userIds serverId).
    - now apply (reachable_membersKnown serverId). }
  rewrite List.Forall_forall in Hall. exact (Hall u Hu groupId).
Qed.

Lemma membership_is_two_sided_witness :
  let bob := User.mk "u2" "bob" "s2" "server1" ["g1"] true 4 in
  (In "g1" (User.groups bob)
   <-> exists group, groups demo !! "g1" = Some group
                     /\ In (User.id bob) (Group.members group))
  /\ (In "group-1" (User.groups bob)
      <-> exists group, groups demo !! "group-1" = Some group
                        /\ In (User.id bob) (Group.members group)).
Proof.
  intros bob.
  assert (Hs : reachableFresh "server1" demo).
  { unfold demo. apply reachableFresh_run; [constructor|].
    vm_compute. repeat split; intuition discriminate. }
  assert (Hu : In bob (users demo)) by (vm_compute; right; left; reflexivity).
  split; exact (membership_is_two_sided "server1" demo bob _ Hs Hu).
Defined.
